(** * ControlNet adapter of ADetailer: a shallow embedding of
    [controlnet_ext/controlnet_ext.py] and the properties of its
    discovery step, adapter object, argument builder and model catalog
    scanner.

    Python values are modelled as follows.
    - [str] is [string]: a string of code points below 256, each an
      [ascii] whose number is the code point (the Latin-1 range of
      Unicode). Strings compare by code point as Python's do, and
      [str.lower] maps the capital letters of that range, [A]-[Z] and the
      accented capitals U+00C0-U+00DE without the sign U+00D7, to their
      small forms, which lie in the range as well.
    - [float] is a primitive float; the module only passes floats through.
    - a [dict] with string keys is a [gmap string _].
    - exceptions are values of [exn]; a call that may raise returns a
      [result].
    - objects of the host and of the neighbor extension (the file system,
      the importer, the hashing utility, the settings store, the ControlNet
      scripting API) are fields of records the functions read. *)

From Stdlib Require Import String Ascii List Bool Arith Lia Permutation Sorted Floats.
From stdpp Require Import base option list sorting gmap strings.

Open Scope string_scope.

(** ** Results and exceptions *)

#[warnings="-register-all"]
Inductive exn : Type :=
| AttributeError (msg : string)
| TypeError (msg : string)
| KeyError (key : string)
| ImportError (msg : string)
| IndexError (msg : string)
| RuntimeError (msg : string) (cause : option exn)
| OtherError (cls : string) (msg : string).

(** [str(e)] for the exceptions the module inspects. *)
Definition exn_str (e : exn) : string :=
  match e with
  | AttributeError m | TypeError m | ImportError m | IndexError m
  | RuntimeError m _ | OtherError _ m => m
  | KeyError k => "'" ++ k ++ "'"
  end.

Inductive result (A : Type) : Type :=
| Ok (a : A)
| Raise (e : exn).
Arguments Ok {A} a.
Arguments Raise {A} e.

(** Sequencing of calls that may raise: [x ← r; k] runs [k] on the value
    of [r] and propagates the exception of [r]. *)
#[global] Instance result_ret : MRet result := fun _ a => Ok a.
#[global] Instance result_bind : MBind result := fun _ _ k r =>
  match r with
  | Ok a => k a
  | Raise e => Raise e
  end.

(** ** Strings *)

(** [sub in s] on Python strings. *)
Fixpoint str_in (sub s : string) : bool :=
  String.prefix sub s ||
  match s with
  | EmptyString => false
  | String _ s' => str_in sub s'
  end.

(** [sub] occurs in [s]: what [str_in] decides. *)
Definition substring_of (sub s : string) : Prop :=
  exists pre post, s = pre ++ sub ++ post.

(** The capital letters among the code points below 256: [A]-[Z],
    U+00C0-U+00D6 and U+00D8-U+00DE. *)
Definition is_capital (c : ascii) : bool :=
  let n := nat_of_ascii c in
  (Nat.leb 65 n && Nat.leb n 90)
  || (Nat.leb 192 n && Nat.leb n 214)
  || (Nat.leb 216 n && Nat.leb n 222).

(** [c.lower()] for one code point: the small form of a capital letter
    lies 32 above it. *)
Definition ascii_lower (c : ascii) : ascii :=
  if is_capital c then ascii_of_nat (nat_of_ascii c + 32) else c.

(** [s.lower()]. *)
Fixpoint lower (s : string) : string :=
  match s with
  | EmptyString => EmptyString
  | String c s' => String (ascii_lower c) (lower s')
  end.





Fixpoint lstrip (c : ascii) (s : string) : string :=
  match s with
  | EmptyString => EmptyString
  | String a s' => if Ascii.eqb a c then lstrip c s' else s
  end.

Fixpoint rstrip (c : ascii) (s : string) : string :=
  match s with
  | EmptyString => EmptyString
  | String a s' =>
      match rstrip c s' with
      | EmptyString => if Ascii.eqb a c then EmptyString else String a EmptyString
      | r => String a r
      end
  end.

(** [s.strip(" ")]. *)
Definition strip_space (s : string) : string := rstrip " " (lstrip " " s).

(** [s.rfind(c)], [None] for Python's [-1]. *)
Fixpoint rfind (c : ascii) (s : string) : option nat :=
  match s with
  | EmptyString => None
  | String a s' =>
      match rfind c s' with
      | Some i => Some (S i)
      | None => if Ascii.eqb a c then Some 0 else None
      end
  end.

(** [sep.join(l)]. *)
Fixpoint join (sep : string) (l : list string) : string :=
  match l with
  | [] => ""
  | [x] => x
  | x :: rest => x ++ sep ++ join sep rest
  end.

Fixpoint split_on (c : ascii) (s : string) : list string :=
  match s with
  | EmptyString => [""]
  | String a s' =>
      let r := split_on c s' in
      if Ascii.eqb a c then "" :: r
      else match r with
           | x :: xs => String a x :: xs
           | [] => [String a ""]
           end
  end.

(** ** Paths ([pathlib.Path], POSIX flavour)

    A path is the list of its [parts]; the separator is the slash, as on
    the hosts that run the module under Linux or macOS. *)

Definition Path : Type := list string.

(** The root of a path string: none for a relative path, ["//"] for
    exactly two leading separators, ["/"] for one and for three or more. *)
Definition path_root (s : string) : list string :=
  match String.length s - String.length (lstrip "/" s) with
  | 0 => []
  | 2 => ["//"]
  | _ => ["/"]
  end.

Definition is_root (part : string) : bool :=
  String.eqb part "/" || String.eqb part "//".

(** [Path(s)]: split at the separators, drop empty and ["."] components,
    keep the root. *)
Definition Path_of_str (s : string) : Path :=
  (path_root s ++
   List.filter (fun x => negb (String.eqb x "") && negb (String.eqb x "."))
               (split_on "/" s))%list.

Definition joinpath (p : Path) (seg : string) : Path :=
  (p ++ Path_of_str seg)%list.

(** [p.name]: the final component, the empty string for a bare root. *)
Definition path_name (p : Path) : string :=
  match List.rev p with
  | [] => ""
  | n :: _ => if is_root n then "" else n
  end.

(** [p.suffix]: the text from the last dot of the name on, when that dot
    is neither the first nor the last character. *)
Definition path_suffix (p : Path) : string :=
  let name := path_name p in
  match rfind "." name with
  | Some i =>
      if Nat.ltb 0 i && Nat.ltb i (String.length name - 1)
      then String.substring i (String.length name - i) name
      else ""
  | None => ""
  end.

(** [p.stem]: the name without its suffix. *)
Definition path_stem (p : Path) : string :=
  let name := path_name p in
  match rfind "." name with
  | Some i =>
      if Nat.ltb 0 i && Nat.ltb i (String.length name - 1)
      then String.substring 0 i name
      else name
  | None => name
  end.

(** [p.parts[-2:]]. *)
Definition last_two (p : Path) : list string :=
  List.skipn (List.length p - 2) p.

(** ** The keyword table *)

Definition cn_model_module : list (string * string) :=
  [ ("inpaint", "inpaint_global_harmonious");
    ("scribble", "t2ia_sketch_pidi");
    ("lineart", "lineart_coarse");
    ("openpose", "openpose_full");
    ("tile", "tile_resample");
    ("depth", "depth_midas");
    ("ip-adapter-faceid-plusv2", "ip-adapter_face_id_plus") ].

(** A compiled pattern ["k1|k2|..."] whose alternatives are literal
    keywords (no key of the table holds a metacharacter) is the list of
    its alternatives; [search] succeeds when one of them occurs. *)
Definition regex : Type := list string.

Definition re_compile_union (keys : list string) : regex := keys.

Definition re_search (r : regex) (s : string) : bool :=
  List.existsb (fun k => str_in k s) r.

Definition cn_model_regex : regex :=
  re_compile_union (List.map fst cn_model_module).

(** Lines 84-90 of [update_scripts_args]: the module the call uses. The
    loop runs over the table in insertion order and stops at the first key
    that occurs in [model]; its [else] branch runs when no key does. *)
Fixpoint scan_table (table : list (string * string)) (model : string)
  : option string :=
  match table with
  | [] => None
  | (m, v) :: rest => if str_in m model then Some v else scan_table rest model
  end.

Definition resolve_module (model : string) (module : option string)
  : option string :=
  match module with
  | None => scan_table cn_model_module model
  | Some s => if String.eqb s "None" then scan_table cn_model_module model
              else Some s
  end.

(** ** Python values held by a request's script arguments *)

Definition float : Type := PrimFloat.float.

(** The neighbor's [ControlMode] enumeration. *)
Inductive ControlMode : Type := BALANCED | PROMPT | CONTROL.

(** The neighbor's [ControlNetUnit], with the attributes this module sets
    and reads. [V] is the type of the [image] attribute. *)
Record ControlNetUnit_ (V : Type) : Type := mkControlNetUnit {
  unit_model : string;
  unit_weight : float;
  unit_control_mode : ControlMode;
  unit_module : option string;
  unit_guidance_start : float;
  unit_guidance_end : float;
  unit_pixel_perfect : bool;
  unit_image : V;
  unit_inpaint_crop_input_image : bool
}.
Arguments mkControlNetUnit {V}.
Arguments unit_model {V}.
Arguments unit_weight {V}.
Arguments unit_control_mode {V}.
Arguments unit_module {V}.
Arguments unit_guidance_start {V}.
Arguments unit_guidance_end {V}.
Arguments unit_pixel_perfect {V}.
Arguments unit_image {V}.
Arguments unit_inpaint_crop_input_image {V}.

(** The members of [p.script_args]: [None], strings, numbers, images
    ([numpy] arrays, identified by a number), dicts and native units. *)
#[warnings="-register-all"]
Inductive pyval : Type :=
| PyNone
| PyBool (b : bool)
| PyInt (n : Z)
| PyFloat (x : float)
| PyStr (s : string)
| PyImage (id : N)
| PyDict (d : gmap string pyval)
| PyUnit (u : ControlNetUnit_ pyval).

Definition ControlNetUnit : Type := ControlNetUnit_ pyval.

(** [v is None]. *)
Definition is_None (v : pyval) : bool :=
  match v with
  | PyNone => true
  | _ => false
  end.

(** [v == s] for a string literal [s]. *)
Definition eq_str (v : pyval) (s : string) : bool :=
  match v with
  | PyStr t => String.eqb t s
  | _ => false
  end.

(** [v[k]] for a string key [k]: defined on dicts that hold the key. An
    array indexed by a string raises [IndexError]; the other values raise
    [TypeError], with the messages of Python 3.10. *)
Definition getitem (v : pyval) (k : string) : result pyval :=
  match v with
  | PyDict d =>
      match d !! k with
      | Some x => Ok x
      | None => Raise (KeyError k)
      end
  | PyNone => Raise (TypeError "'NoneType' object is not subscriptable")
  | PyStr _ => Raise (TypeError "string indices must be integers")
  | PyBool _ => Raise (TypeError "'bool' object is not subscriptable")
  | PyInt _ => Raise (TypeError "'int' object is not subscriptable")
  | PyFloat _ => Raise (TypeError "'float' object is not subscriptable")
  | PyImage _ =>
      Raise (IndexError
               "only integers, slices (`:`), ellipsis (`...`), numpy.newaxis (`None`) and integer or boolean arrays are valid indices")
  | PyUnit _ => Raise (TypeError "'ControlNetUnit' object is not subscriptable")
  end.

(** [d.get(k)]: [None] for a missing key. *)
Definition dict_get (d : gmap string pyval) (k : string) : pyval :=
  match d !! k with
  | Some x => x
  | None => PyNone
  end.

(** The per-request processing object [p]; of its attributes the module
    reads [script_args]. *)
Record Processing : Type := mkProcessing {
  script_args : list pyval
}.

(** ** The neighbor's scripting API ([scripts.external_code])

    [update_cn_script_in_processing p cn_units] mutates [p] and may raise:
    it returns the outcome together with [p] as the call leaves it. *)
Record external_code : Type := mkExternalCode {
  get_models : result (list string);
  update_cn_script_in_processing :
    Processing -> list ControlNetUnit -> result unit * Processing
}.

(** ** The adapter object *)

Record ControlNetExt : Type := mkControlNetExt {
  cn_models : list string;
  cn_available : bool;
  external_cn : option external_code
}.

(** [ControlNetExt()], lines 58-61. *)
Definition ControlNetExt_init : ControlNetExt :=
  {| cn_models := ["None"]; cn_available := false; external_cn := None |}.

(** Reading an attribute [attr] of [self.external_cn]: on [None] Python
    raises [AttributeError]. *)
Definition getattr_external_cn (self : ControlNetExt) (attr : string)
  : result external_code :=
  match external_cn self with
  | Some ext => Ok ext
  | None =>
      Raise (AttributeError
               ("'NoneType' object has no attribute '" ++ attr ++ "'"))
  end.

Definition face_id_module : string := "ip-adapter_face_id_plus".

(** [extract_face_id_from_controlnet], lines 121-131. Each iteration
    evaluates [self.external_cn.ControlNetUnit] for the [isinstance] test. *)
Fixpoint extract_face_id_from_controlnet (self : ControlNetExt)
  (script_args : list pyval) : result pyval :=
  match script_args with
  | [] => Ok PyNone
  | arg :: rest =>
      _ ← getattr_external_cn self "ControlNetUnit";
      match arg with
      | PyUnit u =>
          if bool_decide (unit_module u = Some face_id_module)
          then getitem (unit_image u) "image"
          else extract_face_id_from_controlnet self rest
      | PyDict d =>
          if eq_str (dict_get d "module") face_id_module
             && negb (is_None (dict_get d "input_image"))
          then getitem arg "input_image"
          else extract_face_id_from_controlnet self rest
      | _ => extract_face_id_from_controlnet self rest
      end
  end.

Definition host_too_old_msg : string :=
  "[-] Adetailer: ControlNet option not available in WEBUI version lower than 1.6.0 due to updates in ControlNet".

(** Lines 113-119: the [try]/[except AttributeError] around the merge. *)
Definition translate_merge_error (r : result unit) : result unit :=
  match r with
  | Raise (AttributeError m as e) =>
      if negb (str_in "script_args_value" (exn_str e))
      then Raise e
      else Raise (RuntimeError host_too_old_msg (Some e))
  | _ => r
  end.

(** Lines 92-97: the image and the crop flag of the unit. The second and
    third conjunct of the test are evaluated only when the ones before
    hold; the extraction then runs a second time for the assignment. *)
Definition choose_image (self : ControlNetExt) (p : Processing)
  (module : option string) (input_image : pyval) : result (pyval * bool) :=
  let inpaint_crop_input_image := is_None input_image in
  if bool_decide (module = Some face_id_module) && is_None input_image then
    found ← extract_face_id_from_controlnet self (script_args p);
    if negb (is_None found) then
      again ← extract_face_id_from_controlnet self (script_args p);
      Ok (again, false)
    else Ok (input_image, inpaint_crop_input_image)
  else Ok (input_image, inpaint_crop_input_image).

(** The calls into the neighbor's API, as the module makes them. *)
Inductive cn_call : Type :=
| NewControlNetUnit (u : ControlNetUnit)
| UpdateCnScript (p : Processing) (cn_units : list ControlNetUnit).

(** What a call of [update_scripts_args] leaves behind: its outcome, the
    request as the call leaves it, and the calls made into the neighbor. *)
Record outcome : Type := mkOutcome {
  returned : result unit;
  request : Processing;
  calls : list cn_call
}.

(** [update_scripts_args], lines 71-119; [self] is only read. *)
Definition update_scripts_args (self : ControlNetExt) (p : Processing)
  (model : string) (module : option string)
  (weight guidance_start guidance_end : float) (input_image : pyval)
  : outcome :=
  if negb (cn_available self) || String.eqb model "None"
  then mkOutcome (Ok tt) p []
  else
    let module := resolve_module model module in
    match choose_image self p module input_image with
    | Raise e => mkOutcome (Raise e) p []
    | Ok (input_image, inpaint_crop_input_image) =>
        match getattr_external_cn self "ControlNetUnit" with
        | Raise e => mkOutcome (Raise e) p []
        | Ok ext =>
            let cn_unit :=
              {| unit_model := model;
                 unit_weight := weight;
                 unit_control_mode := BALANCED;
                 unit_module := module;
                 unit_guidance_start := guidance_start;
                 unit_guidance_end := guidance_end;
                 unit_pixel_perfect := true;
                 unit_image := input_image;
                 unit_inpaint_crop_input_image := inpaint_crop_input_image |}
            in
            let cn_units := [cn_unit] in
            let '(r, p') := update_cn_script_in_processing ext p cn_units in
            mkOutcome (translate_merge_error r) p'
                      [NewControlNetUnit cn_unit; UpdateCnScript p cn_units]
        end
    end.

(** ** The host *)

(** An entry of [extensions.active()]. *)
Record Extension : Type := mkExtension {
  ext_enabled : bool;
  ext_name : string;
  ext_path : string
}.

(** What the module reads from the host application and from the Python
    runtime. The file system, the settings and the importable modules may
    differ from one call to the next, so every function takes the host as
    it is at the time of the call. *)
Record Host : Type := mkHost {
  extensions_active : list Extension;       (* extensions.active() *)
  models_path : string;                     (* modules.paths.models_path *)
  opts_data : gmap string string;           (* shared.opts.data, with the
                                               string settings it holds *)
  cmd_opts_controlnet_dir : option string;  (* shared.cmd_opts.controlnet_dir,
                                               [None] when unset or missing *)
  path_exists : Path -> bool;               (* Path.exists *)
  path_rglob : Path -> list Path;           (* list(Path.rglob("*")), in the
                                               order the traversal yields *)
  path_is_file : Path -> bool;              (* Path.is_file *)
  model_hash : Path -> string;              (* sd_models.model_hash *)
  import_module : string -> string -> result external_code
                                            (* importlib.import_module *)
}.

(** ** Discovery, lines 24-36: the module globals set at load time

    Lines 38-43 extend [sys.path] for the import below; what can be
    imported is the host's [import_module]. *)

Record Globals : Type := mkGlobals {
  controlnet_exists : bool;
  controlnet_path : option Path;
  cn_base_path : string
}.

Fixpoint discover (active : list Extension) : Globals :=
  match active with
  | [] => {| controlnet_exists := false;
             controlnet_path := None;
             cn_base_path := "" |}
  | extension :: rest =>
      if negb (ext_enabled extension) then discover rest
      else if str_in "sd-webui-controlnet" (ext_name extension) then
        let path := Path_of_str (ext_path extension) in
        {| controlnet_exists := true;
           controlnet_path := Some path;
           cn_base_path := join "." (last_two path) |}
      else discover rest
  end.

Definition load_module (h : Host) : Globals := discover (extensions_active h).

(** ** [init_controlnet], lines 63-69 *)

Definition init_controlnet (g : Globals) (h : Host) (self : ControlNetExt)
  : result unit * ControlNetExt :=
  let import_path := cn_base_path g ++ ".scripts.external_code" in
  match import_module h import_path "external_code" with
  | Raise e => (Raise e, self)
  | Ok ext =>
      let self1 :=
        {| cn_models := cn_models self;
           cn_available := cn_available self;
           external_cn := Some ext |} in
      let self2 :=
        {| cn_models := cn_models self1;
           cn_available := true;
           external_cn := external_cn self1 |} in
      match get_models ext with
      | Raise e => (Raise e, self2)
      | Ok models =>
          (Ok tt,
           {| cn_models :=
                (cn_models self2 ++
                 List.filter (fun m => re_search cn_model_regex m) models)%list;
              cn_available := cn_available self2;
              external_cn := external_cn self2 |})
      end
  end.

(** ** The model catalog scanner *)

(** [dict.get(key, "")] on the settings store. *)
Definition opts_get (h : Host) (key : string) : string :=
  match opts_data h !! key with
  | Some v => v
  | None => ""
  end.

(** [get_cn_model_dirs], lines 134-148. Of the three optional directories
    those that are truthy (a path, a non-empty string) are kept. *)
Definition get_cn_model_dirs (g : Globals) (h : Host) : list Path :=
  let cn_model_dir := joinpath (Path_of_str (models_path h)) "ControlNet" in
  let cn_model_dir_old :=
    match controlnet_path g with
    | Some cp => [joinpath cp "models"]
    | None => []
    end in
  let ext_dir1 := opts_get h "control_net_models_path" in
  let ext_dir2 := cmd_opts_controlnet_dir h in
  ([cn_model_dir] ++ cn_model_dir_old ++
   (if String.eqb ext_dir1 "" then [] else [Path_of_str ext_dir1]) ++
   (match ext_dir2 with
    | Some d => if String.eqb d "" then [] else [Path_of_str d]
    | None => []
    end))%list.

Definition cn_model_exts : list string :=
  [".pt"; ".pth"; ".ckpt"; ".safetensors"; ".bin"].

(** What the scanner asks of the file system and of the hashing utility. *)
Inductive io_event : Type :=
| Exists (base : Path)
| Rglob (base : Path)
| ModelHash (p : Path).

(** Lines 169-176: whether the file [p] is appended to [model_paths]. *)
Definition keep_model (h : Host) (name_filter : string) (p : Path) : bool :=
  if path_is_file h p
     && bool_decide (path_suffix p ∈ cn_model_exts)
     && re_search cn_model_regex (path_name p)
  then
    if negb (String.eqb name_filter "")
       && negb (str_in name_filter (lower (path_name p)))
    then false
    else true
  else false.

(** Lines 164-176: the loop over the directories. *)
Fixpoint collect_models (h : Host) (name_filter : string) (dirs : list Path)
  : list Path * list io_event :=
  match dirs with
  | [] => ([], [])
  | base :: rest =>
      let '(found, evs) := collect_models h name_filter rest in
      if negb (path_exists h base) then (found, Exists base :: evs)
      else
        ((List.filter (keep_model h name_filter) (path_rglob h base)
          ++ found)%list,
         Exists base :: Rglob base :: evs)
  end.

(** [list.sort(key=...)]: a stable sort, ascending in the key. The result
    of a stable sort is determined by the list and the key, so insertion
    from the right stands for the runtime's algorithm. *)
Fixpoint insert_by_key {A} (key : A -> string) (x : A) (l : list A) : list A :=
  match l with
  | [] => [x]
  | y :: l' =>
      if String.leb (key x) (key y) then x :: y :: l'
      else y :: insert_by_key key x l'
  end.

Fixpoint sort_by_key {A} (key : A -> string) (l : list A) : list A :=
  match l with
  | [] => []
  | x :: l' => insert_by_key key x (sort_by_key key l')
  end.

(** Line 182: the display string of a model file. *)
Definition format_model (h : Host) (p : Path) : string :=
  path_stem p ++ " [" ++ model_hash h p ++ "]".

(** The body of [_get_cn_models], lines 157-184: the catalog and the
    requests made to compute it. *)
Definition scan_cn_models (g : Globals) (h : Host)
  : list string * list io_event :=
  let dirs := get_cn_model_dirs g h in
  let name_filter := opts_get h "control_net_models_name_filter" in
  let name_filter := lower (strip_space name_filter) in
  let '(model_paths, evs) := collect_models h name_filter dirs in
  let model_paths := sort_by_key path_name model_paths in
  (List.map (format_model h) model_paths,
   (evs ++ List.map ModelHash model_paths)%list).

(** The paths of the catalog, in catalog order. *)
Definition scanned_paths (g : Globals) (h : Host) : list Path :=
  sort_by_key path_name
    (fst (collect_models h
            (lower (strip_space (opts_get h "control_net_models_name_filter")))
            (get_cn_model_dirs g h))).

(** [functools.lru_cache] on a function without arguments: the cache is
    empty or holds the list of the first call that returned. *)
Definition lru_cache : Type := option (list string).

(** [_get_cn_models], lines 151-184, under its cache. *)
Definition _get_cn_models (g : Globals) (h : Host) (cache : lru_cache)
  : list string * lru_cache * list io_event :=
  match cache with
  | Some models => (models, cache, [])
  | None =>
      let '(models, evs) := scan_cn_models g h in
      (models, Some models, evs)
  end.

(** [get_cn_models], lines 187-190. *)
Definition get_cn_models (g : Globals) (h : Host) (cache : lru_cache)
  : list string * lru_cache * list io_event :=
  if controlnet_exists g then _get_cn_models g h cache
  else ([], cache, []).

(** ** The adapter as a state machine *)

(** The operations of the adapter object. *)
Inductive adapter_op : Type :=
| OpInitControlnet (g : Globals) (h : Host)
| OpUpdateScriptsArgs (p : Processing) (model : string)
    (module : option string) (weight guidance_start guidance_end : float)
    (input_image : pyval)
| OpExtractFaceId (script_args : list pyval).

(** The adapter after an operation. *)
Definition run_op (op : adapter_op) (self : ControlNetExt) : ControlNetExt :=
  match op with
  | OpInitControlnet g h => snd (init_controlnet g h self)
  | OpUpdateScriptsArgs _ _ _ _ _ _ _ => self
  | OpExtractFaceId _ => self
  end.

Definition run_ops (ops : list adapter_op) (self : ControlNetExt)
  : ControlNetExt :=
  List.fold_left (fun s op => run_op op s) ops self.

(** The operations of one process: every [init_controlnet] runs under
    the globals [g] that the load of the module has set. *)
Definition uses_globals (g : Globals) (op : adapter_op) : Prop :=
  match op with
  | OpInitControlnet g' _ => g' = g
  | _ => True
  end.

(** Whenever the adapter reports the neighbor available, it holds the
    handle of the imported API. *)
Definition handle_present (self : ControlNetExt) : Prop :=
  cn_available self = true -> exists ext, external_cn self = Some ext.

(** ** What the description of [extract_face_id] asks for

    The description, in its own words: the image of the first argument,
    native unit or legacy dict, that matches the face-identity module and
    has a present input image, or null. *)

(** The input image an argument carries for the face-identity module, if
    it matches the module and the image is present. *)
Definition present_face_image (arg : pyval) : option pyval :=
  match arg with
  | PyUnit u =>
      if bool_decide (unit_module u = Some face_id_module) then
        match unit_image u with
        | PyDict d =>
            match d !! "image" with
            | Some img => if is_None img then None else Some img
            | None => None
            end
        | _ => None
        end
      else None
  | PyDict d =>
      if eq_str (dict_get d "module") face_id_module then
        match d !! "input_image" with
        | Some img => if is_None img then None else Some img
        | None => None
        end
      else None
  | _ => None
  end.

Fixpoint described_face_id (script_args : list pyval) : pyval :=
  match script_args with
  | [] => PyNone
  | arg :: rest =>
      match present_face_image arg with
      | Some img => img
      | None => described_face_id rest
      end
  end.

(** ** Sample values *)

(** A neighbor API whose merge appends the units to the script arguments. *)
Definition appending_api : external_code :=
  {| get_models := Ok ["control_v11p_sd15_openpose [cab727d4]"];
     update_cn_script_in_processing := fun p cn_units =>
       (Ok tt,
        {| script_args := (script_args p ++ List.map PyUnit cn_units)%list |}) |}.

(** A neighbor API of an old host: the merge fails on a missing
    attribute. *)
Definition old_host_api (msg : string) : external_code :=
  {| get_models := Ok [];
     update_cn_script_in_processing := fun p _ =>
       (Raise (AttributeError msg), p) |}.

Definition missing_hook_msg : string :=
  "'StableDiffusionProcessingImg2Img' object has no attribute 'script_args_value'".

Definition other_attribute_msg : string :=
  "'NoneType' object has no attribute 'alwayson_scripts'".

Definition ready_adapter (ext : external_code) : ControlNetExt :=
  {| cn_models := ["None"]; cn_available := true; external_cn := Some ext |}.

(** A native unit set to the face-identity module. *)
Definition face_id_unit (image : pyval) : ControlNetUnit :=
  {| unit_model := "ip-adapter-faceid-plusv2_sd15";
     unit_weight := 1%float;
     unit_control_mode := BALANCED;
     unit_module := Some face_id_module;
     unit_guidance_start := 0%float;
     unit_guidance_end := 1%float;
     unit_pixel_perfect := true;
     unit_image := image;
     unit_inpaint_crop_input_image := true |}.

(** A legacy dict-shaped argument set to the face-identity module. *)
Definition face_id_dict (image : pyval) : pyval :=
  PyDict {[ "module" := PyStr face_id_module; "input_image" := image ]}.

(** ** The scanner as its description has it *)

(** Every entry the traversal of the existing model directories yields, in
    the order the directories are listed and the traversal runs. *)
Definition walk_dirs (h : Host) (dirs : list Path) : list Path :=
  List.flat_map
    (fun base => if path_exists h base then path_rglob h base else [])
    dirs.

(** The calls of the scanner after its first one, each on the host as it
    is then; the results with the requests each call made, and the cache
    after the last call. *)
Fixpoint call_again (g : Globals) (later : list Host) (cache : lru_cache)
  : list (list string * list io_event) * lru_cache :=
  match later with
  | [] => ([], cache)
  | h :: rest =>
      let '(models, cache', evs) := _get_cn_models g h cache in
      let '(results, final) := call_again g rest cache' in
      ((models, evs) :: results, final)
  end.

(** ** Sample hosts *)

Definition no_import : string -> string -> result external_code :=
  fun name _ => Raise (ImportError ("No module named '" ++ name ++ "'")).

(** A host with the detail-pass extension enabled and the neighbor
    installed but disabled. *)
Definition host_without_neighbor : Host :=
  {| extensions_active :=
       [ mkExtension false "sd-webui-controlnet" "/sd/extensions/sd-webui-controlnet";
         mkExtension true "adetailer" "/sd/extensions/adetailer" ];
     models_path := "/sd/models";
     opts_data := ∅;
     cmd_opts_controlnet_dir := None;
     path_exists := fun _ => true;
     path_rglob := fun _ => [ ["/"; "sd"; "models"; "ControlNet"; "openpose_v1.safetensors"] ];
     path_is_file := fun _ => true;
     model_hash := fun _ => "cab727d4";
     import_module := no_import |}.

(** A host without the neighbor among its extensions, on which a package
    named [external_code] with a module [scripts.external_code] can be
    imported all the same. *)
Definition host_importable_without_neighbor : Host :=
  {| extensions_active :=
       [ mkExtension false "sd-webui-controlnet" "/sd/extensions/sd-webui-controlnet";
         mkExtension true "adetailer" "/sd/extensions/adetailer" ];
     models_path := "/sd/models";
     opts_data := ∅;
     cmd_opts_controlnet_dir := None;
     path_exists := fun _ => true;
     path_rglob := fun _ => [ ["/"; "sd"; "models"; "ControlNet"; "openpose_v1.safetensors"] ];
     path_is_file := fun _ => true;
     model_hash := fun _ => "cab727d4";
     import_module := fun name package =>
       if String.eqb name ".scripts.external_code"
          && String.eqb package "external_code"
       then Ok appending_api
       else Raise (ImportError ("No module named '" ++ name ++ "'")) |}.




(** Two directories from the settings and the command line, each holding
    a file of its own content under the name [tile_v2.pth], and the same
    directories listed the other way round. *)
Definition host_same_name (first second : string) : Host :=
  {| extensions_active :=
       [ mkExtension true "sd-webui-controlnet" "/sd/extensions/sd-webui-controlnet" ];
     models_path := "/sd/models";
     opts_data := {[ "control_net_models_path" := first ]};
     cmd_opts_controlnet_dir := Some second;
     path_exists := fun base =>
       bool_decide (base = ["/"; "a"]) || bool_decide (base = ["/"; "b"]);
     path_rglob := fun base =>
       if bool_decide (base = ["/"; "a"]) then [ ["/"; "a"; "tile_v2.pth"] ]
       else if bool_decide (base = ["/"; "b"]) then [ ["/"; "b"; "tile_v2.pth"] ]
       else [];
     path_is_file := fun _ => true;
     model_hash := fun p =>
       if bool_decide (p = ["/"; "a"; "tile_v2.pth"]) then "0a0a0a0a"
       else "0b0b0b0b";
     import_module := no_import |}.

(** Two directories holding files of different names, listed in either
    order. *)
Definition host_distinct_names (first second : string) : Host :=
  {| extensions_active :=
       [ mkExtension true "sd-webui-controlnet" "/sd/extensions/sd-webui-controlnet" ];
     models_path := "/sd/models";
     opts_data := {[ "control_net_models_path" := first ]};
     cmd_opts_controlnet_dir := Some second;
     path_exists := fun base =>
       bool_decide (base = ["/"; "a"]) || bool_decide (base = ["/"; "b"]);
     path_rglob := fun base =>
       if bool_decide (base = ["/"; "a"]) then [ ["/"; "a"; "tile_v2.pth"] ]
       else if bool_decide (base = ["/"; "b"]) then [ ["/"; "b"; "depth_v1.pth"] ]
       else [];
     path_is_file := fun _ => true;
     model_hash := fun p =>
       if bool_decide (p = ["/"; "a"; "tile_v2.pth"]) then "0a0a0a0a"
       else "0b0b0b0b";
     import_module := no_import |}.

(** ** The import search path, lines 38-43

    [resolve] stands for [Path.resolve] of the host's file system, and
    [sys_path] for [sys.path] as the module finds it. *)

(** [p.parent]: the path without its final component; the root and the
    empty path are their own parents. *)
Definition path_parent (p : Path) : Path :=
  match p with
  | [r] => if is_root r then p else []
  | _ => List.removelast p
  end.

(** [str(p)]. *)
Definition Path_to_str (p : Path) : string :=
  match p with
  | [] => "."
  | r :: rest =>
      if is_root r then r ++ join "/" rest else join "/" p
  end.

Definition extend_sys_path (resolve : Path -> Path) (g : Globals)
  (sys_path : list string) : list string :=
  match controlnet_path g with
  | None => sys_path
  | Some cp =>
      let sd_webui_controlnet_path := path_parent (resolve cp) in
      if bool_decide (path_stem sd_webui_controlnet_path
                      ∈ ["extensions"; "extensions-builtin"])
      then
        let target_path := Path_to_str (path_parent sd_webui_controlnet_path) in
        if bool_decide (target_path ∈ sys_path) then sys_path
        else (sys_path ++ [target_path])%list
      else sys_path
  end.

(** Equality of paths is decidable. *)
Definition Path_eq_dec : forall p q : Path, {p = q} + {p <> q} :=
  List.list_eq_dec string_dec.

(** ** Reading the requests of a scan *)

(** The directories probed for existence, the directories traversed and
    the files hashed, each in the order of the requests. *)
Definition exists_probes (evs : list io_event) : list Path :=
  List.flat_map (fun ev => match ev with Exists b => [b] | _ => [] end) evs.

Definition traversals (evs : list io_event) : list Path :=
  List.flat_map (fun ev => match ev with Rglob b => [b] | _ => [] end) evs.

Definition hashes (evs : list io_event) : list Path :=
  List.flat_map (fun ev => match ev with ModelHash p => [p] | _ => [] end) evs.

(** A string of [n] spaces. *)
Fixpoint spaces (n : nat) : string :=
  match n with
  | O => ""
  | S n' => String " " (spaces n')
  end.

(** ** Reading the script arguments *)

(** The arguments at which the scan for a face-identity image can stop:
    a native unit set to the face-identity module, and a dict set to it
    that holds an input image. *)
Definition face_id_candidate (arg : pyval) : bool :=
  match arg with
  | PyUnit u => bool_decide (unit_module u = Some face_id_module)
  | PyDict d =>
      eq_str (dict_get d "module") face_id_module
      && negb (is_None (dict_get d "input_image"))
  | _ => false
  end.

(** ** More sample values *)

(** A neighbor API whose model listing fails. *)
Definition failing_models_api : external_code :=
  {| get_models := Raise (OtherError "OSError" "models directory unreadable");
     update_cn_script_in_processing := fun p _ => (Ok tt, p) |}.

(** A neighbor API that lists a model of a family the table knows and one
    it does not. *)
Definition listing_api : external_code :=
  {| get_models := Ok ["control_v11p_sd15_openpose [cab727d4]";
                       "control_v11p_sd15_canny [d14c016b]"];
     update_cn_script_in_processing := fun p _ => (Ok tt, p) |}.

(** A neighbor API whose merge fails outside the attribute protocol. *)
Definition broken_merge_api : external_code :=
  {| get_models := Ok [];
     update_cn_script_in_processing := fun p cn_units =>
       (Raise (OtherError "ValueError" "no ControlNet script in the request"),
        {| script_args := (script_args p ++ [PyNone])%list |}) |}.

(** A host with the neighbor enabled, from which [ext] can be imported
    under the path the discovery derives. *)
Definition host_with_neighbor (ext : external_code) : Host :=
  {| extensions_active :=
       [ mkExtension true "adetailer" "/sd/extensions/adetailer";
         mkExtension false "sd-webui-controlnet-old" "/sd/extensions/sd-webui-controlnet-old";
         mkExtension true "sd-webui-controlnet-master" "/sd/extensions/sd-webui-controlnet-master";
         mkExtension true "sd-webui-controlnet" "/sd/extensions-builtin/sd-webui-controlnet" ];
     models_path := "/sd/models";
     opts_data := {[ "control_net_models_name_filter" := "   " ]};
     cmd_opts_controlnet_dir := None;
     path_exists := fun base =>
       bool_decide (base = ["/"; "sd"; "models"; "ControlNet"]);
     path_rglob := fun _ =>
       [ ["/"; "sd"; "models"; "ControlNet"; "control_depth.pth"];
         ["/"; "sd"; "models"; "ControlNet"; "notes.txt"] ];
     path_is_file := fun _ => true;
     model_hash := fun _ => "cab727d4";
     import_module := fun name _ =>
       if String.eqb name
            "extensions.sd-webui-controlnet-master.scripts.external_code"
       then Ok ext
       else Raise (ImportError ("No module named '" ++ name ++ "'")) |}.

(** * Properties *)

(** ** Substrings *)

Lemma append_cons (c : ascii) (a b : string) :
  String c a ++ b = String c (a ++ b).
Proof. reflexivity. Qed.

Lemma append_empty_l (b : string) : "" ++ b = b.
Proof. reflexivity. Qed.

Lemma prefix_spec (a s : string) :
  String.prefix a s = true <-> exists post, s = a ++ post.
Proof.
  revert s. induction a as [|c a IH]; intros s.
  - split; [intros _; by exists s | by destruct s].
  - destruct s as [|d s]; simpl.
    + split; [done | intros [post H]; discriminate].
    + destruct (ascii_dec c d) as [->|Hne].
      * rewrite IH. split; intros [post H]; exists post.
        -- by rewrite append_cons, H.
        -- rewrite append_cons in H. congruence.
      * split; [done | intros [post H]].
        rewrite append_cons in H. congruence.
Qed.

Lemma str_in_nil (sub : string) : str_in sub "" = String.prefix sub "".
Proof. unfold str_in. apply orb_false_r. Qed.

Lemma str_in_cons (sub : string) (c : ascii) (s : string) :
  str_in sub (String c s) = String.prefix sub (String c s) || str_in sub s.
Proof. reflexivity. Qed.

Lemma str_in_spec (sub s : string) :
  str_in sub s = true <-> substring_of sub s.
Proof.
  induction s as [|c s IH].
  - rewrite str_in_nil. etrans; [apply prefix_spec|]. split.
    + intros [post H]. by exists "", post.
    + intros [pre [post H]]. destruct pre as [|d pre].
      * by exists post.
      * rewrite append_cons in H. discriminate.
  - rewrite str_in_cons, orb_true_iff, IH. split.
    + intros [Hp | [pre [post H]]].
      * apply prefix_spec in Hp as [post H]. by exists "", post.
      * exists (String c pre), post. by rewrite append_cons, H.
    + intros [pre [post H]]. destruct pre as [|d pre].
      * left. apply prefix_spec. by exists post.
      * right. exists pre, post. rewrite append_cons in H. congruence.
Qed.

Lemma str_in_false (sub s : string) :
  str_in sub s = false <-> ~ substring_of sub s.
Proof.
  rewrite <- str_in_spec. destruct (str_in sub s); split; try done.
Qed.

Lemma append_assoc (a b c : string) : (a ++ b) ++ c = a ++ (b ++ c).
Proof.
  induction a as [|x a IH]; [done|]. by rewrite !append_cons, IH.
Qed.

Lemma append_empty_r (s : string) : s ++ "" = s.
Proof. induction s as [|c s IH]; [done|]. by rewrite append_cons, IH. Qed.

Lemma substring_split (i : nat) (s : string) :
  i <= String.length s ->
  String.substring 0 i s ++ String.substring i (String.length s - i) s = s.
Proof.
  revert s. induction i as [|i IH]; intros s Hi.
  - rewrite Nat.sub_0_r.
    assert (String.substring 0 0 s = "") as -> by (by destruct s).
    rewrite append_empty_l. clear Hi.
    induction s as [|c s IHs]; [done|]. simpl. by rewrite IHs.
  - destruct s as [|c s]; simpl in Hi; [lia|].
    simpl. rewrite append_cons. f_equal. apply IH. lia.
Qed.

(** The name of a path is its stem followed by its suffix. *)
Lemma path_stem_suffix (p : Path) :
  path_stem p ++ path_suffix p = path_name p.
Proof.
  unfold path_stem, path_suffix.
  destruct (rfind "." (path_name p)) as [i|]; [|apply append_empty_r].
  destruct (Nat.ltb 0 i && Nat.ltb i (String.length (path_name p) - 1))
    eqn:Hc; [|apply append_empty_r].
  apply andb_true_iff in Hc as [_ Hi]. apply Nat.ltb_lt in Hi.
  apply substring_split. lia.
Qed.

(** ** Module resolution *)

Lemma scan_table_first (table : list (string * string)) (model : string)
  (pre post : list (string * string)) (k v : string) :
  table = (pre ++ (k, v) :: post)%list ->
  substring_of k model ->
  (forall k' v', In (k', v') pre -> ~ substring_of k' model) ->
  scan_table table model = Some v.
Proof.
  intros -> Hk Hpre. induction pre as [|[k' v'] pre IH]; simpl.
  - apply str_in_spec in Hk. by rewrite Hk.
  - assert (str_in k' model = false) as ->.
    { apply str_in_false. apply (Hpre k' v'). by left. }
    apply IH. intros k2 v2 Hin. apply (Hpre k2 v2). by right.
Qed.

Lemma scan_table_none (table : list (string * string)) (model : string) :
  (forall k v, In (k, v) table -> ~ substring_of k model) ->
  scan_table table model = None.
Proof.
  induction table as [|[k v] table IH]; intros H; simpl; [done|].
  assert (str_in k model = false) as ->.
  { apply str_in_false. apply (H k v). by left. }
  apply IH. intros k2 v2 Hin. apply (H k2 v2). by right.
Qed.

Lemma scan_table_find (table : list (string * string)) (model : string) :
  scan_table table model =
  snd <$> List.find (fun kv => str_in (fst kv) model) table.
Proof.
  induction table as [|[k v] table IH]; simpl; [done|].
  destruct (str_in k model); [done | apply IH].
Qed.

(** C2: when the caller leaves the module unspecified ([None] or the
    string "None"), the module is the value of the first key of the keyword
    table, in table order, that is a substring of the model name; a model
    name that holds "depth" and none of the keys listed before it resolves
    to "depth_midas"; when no key is a substring the module stays unset. *)
Theorem resolve_module_first_match (model : string) (module : option string) :
  module = None \/ module = Some "None" ->
  (forall pre post k v,
      cn_model_module = (pre ++ (k, v) :: post)%list ->
      substring_of k model ->
      (forall k' v', In (k', v') pre -> ~ substring_of k' model) ->
      resolve_module model module = Some v)
  /\ (substring_of "depth" model ->
      (forall k, In k ["inpaint"; "scribble"; "lineart"; "openpose"; "tile"] ->
                 ~ substring_of k model) ->
      resolve_module model module = Some "depth_midas")
  /\ ((forall k v, In (k, v) cn_model_module -> ~ substring_of k model) ->
      resolve_module model module = None).
Proof.
  intros Hmod.
  assert (resolve_module model module = scan_table cn_model_module model) as ->.
  { by destruct Hmod as [-> | ->]. }
  split; [|split].
  - intros pre post k v Htab Hk Hpre. by eapply scan_table_first.
  - intros Hd Hearlier.
    apply (scan_table_first cn_model_module model
             [ ("inpaint", "inpaint_global_harmonious");
               ("scribble", "t2ia_sketch_pidi");
               ("lineart", "lineart_coarse");
               ("openpose", "openpose_full");
               ("tile", "tile_resample") ]
             [ ("ip-adapter-faceid-plusv2", "ip-adapter_face_id_plus") ]
             "depth" "depth_midas"); [done | done |].
    intros k' v' Hin. apply Hearlier.
    simpl in Hin. simpl.
    repeat (destruct Hin as [Hin | Hin]; [inversion Hin; subst; tauto|]).
    done.
  - apply scan_table_none.
Qed.

(** The call on a model file of the depth family. *)
Lemma resolve_module_first_match_witness :
  resolve_module "control_v11f1p_sd15_depth" None = Some "depth_midas".
Proof.
  apply (resolve_module_first_match "control_v11f1p_sd15_depth" None
           (or_introl eq_refl)).
  - apply str_in_spec. vm_compute. reflexivity.
  - intros k Hin. apply str_in_false.
    simpl in Hin.
    repeat (destruct Hin as [<- | Hin]; [vm_compute; reflexivity|]).
    destruct Hin.
Defined.

(** ** The argument builder *)

Section UpdateScriptsArgs.

Variables (self : ControlNetExt) (p : Processing).
Variables (model : string) (module : option string).
Variables (weight guidance_start guidance_end : float).
Variable input_image : pyval.

Lemma guards_pass :
  cn_available self = true -> model <> "None" ->
  negb (cn_available self) || String.eqb model "None" = false.
Proof.
  intros -> Hm. simpl. by apply String.eqb_neq.
Qed.

(** An image given by the caller is used as it is, without a crop. *)
Lemma choose_image_given (m : option string) :
  is_None input_image = false ->
  choose_image self p m input_image = Ok (input_image, false).
Proof.
  intros H. unfold choose_image. rewrite H, andb_false_r. done.
Qed.

(** Outside the face-identity module the script arguments are not
    consulted. *)
Lemma choose_image_other_module (m : option string) :
  m <> Some face_id_module ->
  choose_image self p m input_image = Ok (input_image, is_None input_image).
Proof.
  intros H. unfold choose_image. by rewrite bool_decide_eq_false_2.
Qed.

(** In the face-identity module, without an image from the caller, the
    script arguments decide. *)
Lemma choose_image_face_id :
  input_image = PyNone ->
  choose_image self p (Some face_id_module) input_image =
  match extract_face_id_from_controlnet self (script_args p) with
  | Raise e => Raise e
  | Ok found => if is_None found then Ok (PyNone, true) else Ok (found, false)
  end.
Proof.
  intros ->. unfold choose_image.
  rewrite bool_decide_eq_true_2 by done. simpl.
  destruct (extract_face_id_from_controlnet self (script_args p)) as [found|e]
    eqn:E; simpl; [|done].
  by destruct (is_None found).
Qed.

(** Past the guards, with the image settled, the call builds one unit
    and hands the one-element list to the merge. *)
Lemma update_scripts_args_past_guards (ext : external_code)
  (image : pyval) (crop : bool) :
  cn_available self = true -> model <> "None" ->
  external_cn self = Some ext ->
  choose_image self p (resolve_module model module) input_image
    = Ok (image, crop) ->
  let cn_unit :=
    mkControlNetUnit model weight BALANCED (resolve_module model module)
      guidance_start guidance_end true image crop in
  update_scripts_args self p model module weight guidance_start
    guidance_end input_image
  = mkOutcome
      (translate_merge_error
         (fst (update_cn_script_in_processing ext p [cn_unit])))
      (snd (update_cn_script_in_processing ext p [cn_unit]))
      [NewControlNetUnit cn_unit; UpdateCnScript p [cn_unit]].
Proof.
  intros Hav Hm Hext Himg. unfold update_scripts_args.
  rewrite guards_pass by done. rewrite Himg.
  unfold getattr_external_cn. rewrite Hext.
  by destruct (update_cn_script_in_processing ext p _).
Qed.

End UpdateScriptsArgs.

(** C3: a call with the model "None", or on an adapter whose
    [cn_available] is false, returns normally, leaves the request as it
    was, builds no unit and makes no call into the neighbor's API. *)
Theorem update_scripts_args_noop (self : ControlNetExt) (p : Processing)
  (model : string) (module : option string)
  (weight guidance_start guidance_end : float) (input_image : pyval) :
  model = "None" \/ cn_available self = false ->
  update_scripts_args self p model module weight guidance_start guidance_end
    input_image
  = mkOutcome (Ok tt) p [].
Proof.
  intros [-> | H]; unfold update_scripts_args.
  - by rewrite orb_true_r.
  - by rewrite H.
Qed.

(** The no-op on a ready adapter asked for the model "None", and on a
    fresh adapter asked for a real model. *)
Lemma update_scripts_args_noop_witness :
  update_scripts_args (ready_adapter appending_api)
    (mkProcessing [PyBool true; PyStr "face_yolov8n.pt"])
    "None" None 1%float 0%float 1%float PyNone
  = mkOutcome (Ok tt) (mkProcessing [PyBool true; PyStr "face_yolov8n.pt"]) []
  /\
  update_scripts_args ControlNetExt_init
    (mkProcessing [PyBool true; PyStr "face_yolov8n.pt"])
    "control_v11p_sd15_openpose [cab727d4]" None 1%float 0%float 1%float PyNone
  = mkOutcome (Ok tt) (mkProcessing [PyBool true; PyStr "face_yolov8n.pt"]) [].
Proof.
  split.
  - apply update_scripts_args_noop. left. reflexivity.
  - apply update_scripts_args_noop. right. reflexivity.
Defined.

(** C5: when the merge call raises an [AttributeError] whose message
    holds "script_args_value", the call raises a [RuntimeError] caused by
    it, whose message names the host version 1.6.0; when the merge call
    raises any other [AttributeError], the call raises that same error. *)
Theorem merge_attribute_error_translated (self : ControlNetExt)
  (p p' : Processing) (model : string) (module : option string)
  (weight guidance_start guidance_end : float) (input_image image : pyval)
  (crop : bool) (ext : external_code) (msg : string) :
  cn_available self = true -> model <> "None" ->
  external_cn self = Some ext ->
  choose_image self p (resolve_module model module) input_image
    = Ok (image, crop) ->
  update_cn_script_in_processing ext p
    [mkControlNetUnit model weight BALANCED (resolve_module model module)
       guidance_start guidance_end true image crop]
    = (Raise (AttributeError msg), p') ->
  returned (update_scripts_args self p model module weight guidance_start
              guidance_end input_image)
  = (if str_in "script_args_value" msg
     then Raise (RuntimeError host_too_old_msg (Some (AttributeError msg)))
     else Raise (AttributeError msg))
  /\ substring_of "WEBUI version lower than 1.6.0" host_too_old_msg.
Proof.
  intros Hav Hm Hext Himg Hmerge. split.
  - rewrite (update_scripts_args_past_guards _ _ _ _ _ _ _ _ ext image crop)
      by done.
    simpl. rewrite Hmerge. simpl.
    by destruct (str_in "script_args_value" msg).
  - apply str_in_spec. vm_compute. reflexivity.
Qed.

(** The two cases on an old host, with an image from the caller. *)
Lemma merge_attribute_error_translated_witness :
  returned (update_scripts_args
              (ready_adapter (old_host_api missing_hook_msg))
              (mkProcessing []) "control_v11p_sd15_openpose" None
              1%float 0%float 1%float (PyImage 7))
  = Raise (RuntimeError host_too_old_msg
             (Some (AttributeError missing_hook_msg)))
  /\ returned (update_scripts_args
              (ready_adapter (old_host_api other_attribute_msg))
              (mkProcessing []) "control_v11p_sd15_openpose" None
              1%float 0%float 1%float (PyImage 7))
  = Raise (AttributeError other_attribute_msg).
Proof.
  split.
  - refine (proj1 (merge_attribute_error_translated
             (ready_adapter (old_host_api missing_hook_msg))
             (mkProcessing []) (mkProcessing [])
             "control_v11p_sd15_openpose" None 1%float 0%float 1%float
             (PyImage 7) (PyImage 7) false (old_host_api missing_hook_msg)
             missing_hook_msg _ _ _ _ _));
      try reflexivity.
    discriminate.
  - refine (proj1 (merge_attribute_error_translated
             (ready_adapter (old_host_api other_attribute_msg))
             (mkProcessing []) (mkProcessing [])
             "control_v11p_sd15_openpose" None 1%float 0%float 1%float
             (PyImage 7) (PyImage 7) false (old_host_api other_attribute_msg)
             other_attribute_msg _ _ _ _ _));
      try reflexivity.
    discriminate.
Defined.

(** ** Reuse of a face-identity image *)

Lemma extract_face_id_cons (self : ControlNetExt) (ext : external_code)
  (arg : pyval) (rest : list pyval) :
  external_cn self = Some ext ->
  extract_face_id_from_controlnet self (arg :: rest) =
  match arg with
  | PyUnit u =>
      if bool_decide (unit_module u = Some face_id_module)
      then getitem (unit_image u) "image"
      else extract_face_id_from_controlnet self rest
  | PyDict d =>
      if eq_str (dict_get d "module") face_id_module
         && negb (is_None (dict_get d "input_image"))
      then getitem arg "input_image"
      else extract_face_id_from_controlnet self rest
  | _ => extract_face_id_from_controlnet self rest
  end.
Proof.
  intros H. simpl. unfold getattr_external_cn. rewrite H. done.
Qed.

(** On script arguments whose native face-identity units all carry an
    image, the scan returns what its description asks for. *)
Lemma extract_face_id_as_described (self : ControlNetExt)
  (ext : external_code) (script_args : list pyval) :
  external_cn self = Some ext ->
  (forall u, In (PyUnit u) script_args ->
             unit_module u = Some face_id_module ->
             present_face_image (PyUnit u) <> None) ->
  extract_face_id_from_controlnet self script_args
  = Ok (described_face_id script_args).
Proof.
  intros Hext. induction script_args as [|arg rest IH]; intros Hunits.
  - done.
  - rewrite (extract_face_id_cons self ext) by done.
    assert (extract_face_id_from_controlnet self rest
            = Ok (described_face_id rest)) as IH'.
    { apply IH. intros u Hin. apply Hunits. by right. }
    destruct arg as [| | | | | |d|u]; simpl; try done.
    + unfold dict_get.
      destruct (eq_str _ face_id_module) eqn:Hm; simpl; [|done].
      destruct (d !! "input_image") as [img|] eqn:Himg; simpl; [|done].
      by destruct (is_None img).
    + specialize (Hunits u (or_introl eq_refl)). simpl in Hunits.
      destruct (bool_decide (unit_module u = Some face_id_module)) eqn:Hm;
        [|done].
      apply bool_decide_eq_true_1 in Hm. specialize (Hunits Hm).
      destruct (unit_image u) as [| | | | | |d|]; try done. simpl.
      destruct (d !! "image") as [img|]; [|done].
      by destruct (is_None img).
Qed.

(** C6: the scan and its description differ on a native face-identity
    unit without an image that precedes a legacy dict with one. The
    description asks for the image of the dict; the scan stops at the
    native unit, raising [TypeError] when the unit's image is [None] and
    returning [None] when the unit's image dict holds [None]. *)
Theorem extract_face_id_native_unit_without_image (ext : external_code) :
  described_face_id
    [PyUnit (face_id_unit PyNone); face_id_dict (PyImage 7)] = PyImage 7
  /\ extract_face_id_from_controlnet (ready_adapter ext)
       [PyUnit (face_id_unit PyNone); face_id_dict (PyImage 7)]
     = Raise (TypeError "'NoneType' object is not subscriptable")
  /\ described_face_id
       [PyUnit (face_id_unit (PyDict {[ "image" := PyNone ]}));
        face_id_dict (PyImage 7)] = PyImage 7
  /\ extract_face_id_from_controlnet (ready_adapter ext)
       [PyUnit (face_id_unit (PyDict {[ "image" := PyNone ]}));
        face_id_dict (PyImage 7)]
     = Ok PyNone.
Proof.
  repeat split; vm_compute; reflexivity.
Qed.

(** The legacy dict is found when the native units before it are set to
    another module. *)
Lemma extract_face_id_legacy_dict (ext : external_code) (u : ControlNetUnit)
  (img : pyval) :
  unit_module u <> Some face_id_module ->
  is_None img = false ->
  extract_face_id_from_controlnet (ready_adapter ext)
    [PyBool true; PyUnit u; face_id_dict img] = Ok img.
Proof.
  intros Hu Himg.
  rewrite (extract_face_id_as_described _ ext) by
    (try done; intros u' [H|[H|[H|[]]]] Hm; try discriminate; congruence).
  simpl. rewrite bool_decide_eq_false_2 by done.
  vm_compute. by destruct img.
Qed.

(** Past the guards, when the scan of the script arguments completes, the
    call builds exactly one unit, balanced and pixel perfect, and hands it
    to the merge; the crop flag is set exactly when the caller gave no
    image and none was reused. *)
Lemma update_scripts_args_one_unit (self : ControlNetExt) (p : Processing)
  (model : string) (module : option string)
  (weight guidance_start guidance_end : float) (input_image : pyval)
  (ext : external_code) (found : pyval) :
  cn_available self = true -> model <> "None" ->
  external_cn self = Some ext ->
  extract_face_id_from_controlnet self (script_args p) = Ok found ->
  let reuse :=
    bool_decide (resolve_module model module = Some face_id_module)
    && is_None input_image && negb (is_None found) in
  exists u,
    calls (update_scripts_args self p model module weight guidance_start
             guidance_end input_image)
    = [NewControlNetUnit u; UpdateCnScript p [u]]
    /\ unit_control_mode u = BALANCED
    /\ unit_pixel_perfect u = true
    /\ unit_model u = model
    /\ unit_module u = resolve_module model module
    /\ unit_image u = (if reuse then found else input_image)
    /\ unit_inpaint_crop_input_image u
       = (if reuse then false else is_None input_image).
Proof.
  intros Hav Hm Hext Hfound reuse.
  assert (choose_image self p (resolve_module model module) input_image
          = Ok (if reuse then found else input_image,
                if reuse then false else is_None input_image)) as Himg.
  { subst reuse. unfold choose_image. rewrite Hfound.
    destruct (bool_decide _); simpl; [|done].
    destruct (is_None input_image); simpl; [|done].
    by destruct (is_None found). }
  eexists. rewrite (update_scripts_args_past_guards _ _ _ _ _ _ _ _ ext _ _
                      Hav Hm Hext Himg).
  simpl. repeat split; reflexivity.
Qed.

(** C1: a call that passes both guards and builds no unit. The request
    holds a native unit set to the face-identity module without an image;
    the model resolves to the face-identity module and the caller gives no
    image. The scan of the script arguments raises [TypeError] at the
    native unit, the call ends there, and neither the unit constructor nor
    the merge is called. *)
Theorem update_scripts_args_face_id_unit_without_image
  (ext : external_code) (weight guidance_start guidance_end : float) :
  let self := ready_adapter ext in
  let p := mkProcessing [PyBool true; PyUnit (face_id_unit PyNone)] in
  cn_available self = true
  /\ resolve_module "ip-adapter-faceid-plusv2_sd15" None = Some face_id_module
  /\ update_scripts_args self p "ip-adapter-faceid-plusv2_sd15" None
       weight guidance_start guidance_end PyNone
     = mkOutcome (Raise (TypeError "'NoneType' object is not subscriptable"))
         p [].
Proof.
  repeat split; vm_compute; reflexivity.
Qed.

(** ** The adapter's handle *)

Lemma init_controlnet_cases (g : Globals) (h : Host) (self : ControlNetExt) :
  (exists e,
      import_module h (cn_base_path g ++ ".scripts.external_code")
        "external_code" = Raise e
      /\ init_controlnet g h self = (Raise e, self))
  \/ (exists ext,
      import_module h (cn_base_path g ++ ".scripts.external_code")
        "external_code" = Ok ext
      /\ cn_available (snd (init_controlnet g h self)) = true
      /\ external_cn (snd (init_controlnet g h self)) = Some ext).
Proof.
  unfold init_controlnet.
  destruct (import_module h _ _) as [ext|e].
  - right. exists ext. split; [done|].
    by destruct (get_models ext).
  - left. by exists e.
Qed.

Lemma run_op_handle_present (op : adapter_op) (self : ControlNetExt) :
  handle_present self -> handle_present (run_op op self).
Proof.
  intros Hinv. destruct op as [g h| |]; simpl; try done.
  destruct (init_controlnet_cases g h self) as [[e [_ ->]] | [ext [_ [_ H]]]].
  - done.
  - intros _. by exists ext.
Qed.

Lemma run_op_available_mono (op : adapter_op) (self : ControlNetExt) :
  cn_available self = true -> cn_available (run_op op self) = true.
Proof.
  intros Hav. destruct op as [g h| |]; simpl; try done.
  destruct (init_controlnet_cases g h self) as [[e [_ ->]] | [ext [_ [H _]]]];
    done.
Qed.

Lemma fresh_handle_present : handle_present ControlNetExt_init.
Proof. intros H. discriminate H. Qed.

Lemma run_ops_handle_present (ops : list adapter_op) (self : ControlNetExt) :
  handle_present self -> handle_present (run_ops ops self).
Proof.
  revert self. induction ops as [|op ops IH]; intros self Hinv; simpl; [done|].
  apply IH. by apply run_op_handle_present.
Qed.

Lemma run_ops_available_mono (ops : list adapter_op) (self : ControlNetExt) :
  cn_available self = true -> cn_available (run_ops ops self) = true.
Proof.
  revert self. induction ops as [|op ops IH]; intros self Hav; simpl; [done|].
  apply IH. by apply run_op_available_mono.
Qed.

(** What the invariant rules out: an adapter that reports the neighbor
    available without holding the handle fails every call that passes the
    guards, at its first read of the handle. *)
Lemma update_scripts_args_null_handle (self : ControlNetExt) (p : Processing)
  (model : string) (module : option string)
  (weight guidance_start guidance_end : float) (input_image : pyval) :
  cn_available self = true -> model <> "None" ->
  external_cn self = None ->
  update_scripts_args self p model module weight guidance_start guidance_end
    input_image
  = mkOutcome
      (Raise (AttributeError
                "'NoneType' object has no attribute 'ControlNetUnit'"))
      p [].
Proof.
  intros Hav Hm Hnull. unfold update_scripts_args.
  rewrite guards_pass by done.
  assert (forall attr, getattr_external_cn self attr
                       = Raise (AttributeError
                                  ("'NoneType' object has no attribute '"
                                   ++ attr ++ "'"))) as Hget.
  { intros attr. unfold getattr_external_cn. by rewrite Hnull. }
  unfold choose_image.
  destruct (bool_decide _ && is_None input_image); [|by rewrite Hget].
  destruct (script_args p) as [|arg rest]; simpl; by rewrite Hget.
Qed.

(** C10: the adapter keeps the invariant that [cn_available] implies a
    present handle. It holds for the fresh adapter and after every sequence
    of operations; under it a call of [update_scripts_args] that passes the
    availability guard reads the handle and never [None]; [cn_available]
    turns true only in [init_controlnet] after the import returned a
    module, and no operation turns it false again. *)
Theorem handle_present_invariant (ops : list adapter_op) :
  let self := run_ops ops ControlNetExt_init in
  handle_present self
  /\ (cn_available self = true ->
      forall attr, exists ext,
        external_cn self = Some ext
        /\ getattr_external_cn self attr = Ok ext)
  /\ (forall op,
        cn_available self = false ->
        cn_available (run_op op self) = true ->
        exists g h ext,
          op = OpInitControlnet g h
          /\ import_module h (cn_base_path g ++ ".scripts.external_code")
               "external_code" = Ok ext
          /\ external_cn (run_op op self) = Some ext)
  /\ (forall more,
        cn_available self = true ->
        cn_available (run_ops more self) = true).
Proof.
  intros self.
  assert (handle_present self) as Hinv.
  { apply run_ops_handle_present, fresh_handle_present. }
  split; [done|]. split; [|split].
  - intros Hav attr. destruct (Hinv Hav) as [ext Hext]. exists ext.
    split; [done|]. unfold getattr_external_cn. by rewrite Hext.
  - intros op Hoff Hon. destruct op as [g h| |]; simpl in *; try congruence.
    destruct (init_controlnet_cases g h self)
      as [[e [_ Hr]] | [ext [Hi [_ H]]]].
    + rewrite Hr in Hon. simpl in Hon. congruence.
    + by exists g, h, ext.
  - intros more. apply run_ops_available_mono.
Qed.

(** ** Sorting by key *)

Lemma insert_by_key_perm {A} (key : A -> string) (x : A) (l : list A) :
  Permutation (insert_by_key key x l) (x :: l).
Proof.
  induction l as [|y l IH]; simpl; [done|].
  destruct (String.leb (key x) (key y)); [done|].
  rewrite IH. apply perm_swap.
Qed.

Lemma sort_by_key_perm {A} (key : A -> string) (l : list A) :
  Permutation (sort_by_key key l) l.
Proof.
  induction l as [|x l IH]; simpl; [done|].
  rewrite insert_by_key_perm. by constructor.
Qed.

Lemma insert_by_key_map {A} (key : A -> string) (x : A) (l : list A) :
  List.map key (insert_by_key key x l)
  = insert_by_key (fun k => k) (key x) (List.map key l).
Proof.
  induction l as [|y l IH]; simpl; [done|].
  destruct (String.leb (key x) (key y)); simpl; [done|]. by rewrite IH.
Qed.

Lemma sort_by_key_map {A} (key : A -> string) (l : list A) :
  List.map key (sort_by_key key l)
  = sort_by_key (fun k => k) (List.map key l).
Proof.
  induction l as [|x l IH]; simpl; [done|].
  by rewrite insert_by_key_map, IH.
Qed.

Lemma leb_false_le (a b : string) : String.leb a b = false -> String.le b a.
Proof.
  intros H. destruct (String.leb_total a b) as [H'|H']; [congruence|].
  unfold String.le. by rewrite H'.
Qed.

Lemma insert_keys_sorted (k : string) (l : list string) :
  Sorted String.le l -> Sorted String.le (insert_by_key (fun k => k) k l).
Proof.
  induction 1 as [|y l Hs IH Hhd]; simpl.
  - by repeat constructor.
  - destruct (String.leb k y) eqn:Hky.
    + constructor; [by constructor|]. constructor.
      unfold String.le. by rewrite Hky.
    + constructor; [done|].
      destruct Hhd as [|z l Hyz]; simpl in *.
      * constructor. by apply leb_false_le.
      * destruct (String.leb k z); constructor; [by apply leb_false_le|done].
Qed.

Lemma sort_keys_sorted (l : list string) :
  Sorted String.le (sort_by_key (fun k => k) l).
Proof.
  induction l as [|k l IH]; simpl; [constructor|].
  by apply insert_keys_sorted.
Qed.

(** The sort is ascending in the key. *)
Lemma sort_by_key_sorted {A} (key : A -> string) (l : list A) :
  StronglySorted String.le (List.map key (sort_by_key key l)).
Proof.
  rewrite sort_by_key_map. apply sorting.Sorted_StronglySorted; [apply _|].
  apply sort_keys_sorted.
Qed.

(** The sort is stable: the elements of one key keep their order. *)
Lemma insert_by_key_filter {A} (key : A -> string) (k : string) (x : A)
  (l : list A) :
  StronglySorted String.le (List.map key l) ->
  List.filter (fun y => String.eqb (key y) k) (insert_by_key key x l)
  = List.filter (fun y => String.eqb (key y) k) (x :: l).
Proof.
  induction l as [|y l IH]; intros Hs; simpl; [done|].
  destruct (String.leb (key x) (key y)) eqn:Hxy; simpl; [done|].
  simpl in Hs. apply StronglySorted_inv in Hs as [Hs Hall].
  rewrite IH by done. simpl.
  destruct (String.eqb (key x) k) eqn:Hx; [|done].
  destruct (String.eqb (key y) k) eqn:Hy; [|done].
  apply String.eqb_eq in Hx, Hy. rewrite Hx, Hy in Hxy.
  assert (String.le k k) as Hkk by done.
  unfold String.le in Hkk. by rewrite Hxy in Hkk.
Qed.

Lemma sort_by_key_stable {A} (key : A -> string) (k : string) (l : list A) :
  List.filter (fun y => String.eqb (key y) k) (sort_by_key key l)
  = List.filter (fun y => String.eqb (key y) k) l.
Proof.
  induction l as [|x l IH]; simpl; [done|].
  rewrite insert_by_key_filter by apply sort_by_key_sorted.
  simpl. by rewrite IH.
Qed.

(** Two orderings of the same files, both ascending in the key, show the
    same keys at the same places. *)
Lemma sorted_keys_unique {A} (key : A -> string) (l1 l2 : list A) :
  Permutation l1 l2 ->
  List.map key (sort_by_key key l1) = List.map key (sort_by_key key l2).
Proof.
  intros Hp. apply (sorting.StronglySorted_unique String.le).
  - apply sort_by_key_sorted.
  - apply sort_by_key_sorted.
  - apply Permutation_map. by rewrite !sort_by_key_perm.
Qed.

(** ** The catalog scanner *)

Lemma collect_models_fst (h : Host) (name_filter : string) (dirs : list Path) :
  fst (collect_models h name_filter dirs)
  = List.filter (keep_model h name_filter) (walk_dirs h dirs).
Proof.
  induction dirs as [|base dirs IH]; simpl; [done|].
  destruct (collect_models h name_filter dirs) as [found evs]. simpl in IH.
  rewrite List.filter_app, <- IH.
  by destruct (path_exists h base).
Qed.

Lemma walk_dirs_In (h : Host) (dirs : list Path) (p : Path) :
  In p (walk_dirs h dirs) <->
  exists base, In base dirs /\ path_exists h base = true
               /\ In p (path_rglob h base).
Proof.
  unfold walk_dirs. rewrite in_flat_map. split.
  - intros [base [Hb Hp]]. exists base.
    destruct (path_exists h base); [done | destruct Hp].
  - intros [base [Hb [He Hp]]]. exists base. by rewrite He.
Qed.

Lemma re_search_spec (s : string) :
  re_search cn_model_regex s = true <->
  exists k v, In (k, v) cn_model_module /\ substring_of k s.
Proof.
  unfold re_search, cn_model_regex, re_compile_union.
  rewrite existsb_exists. split.
  - intros [k [Hk Hs]]. apply in_map_iff in Hk as [[k' v] [<- Hin]].
    exists k', v. split; [done|]. by apply str_in_spec.
  - intros [k [v [Hin Hs]]]. exists k. split.
    + apply in_map_iff. by exists (k, v).
    + by apply str_in_spec.
Qed.

Lemma keep_model_spec (h : Host) (name_filter : string) (p : Path) :
  keep_model h name_filter p = true <->
  path_is_file h p = true
  /\ In (path_suffix p) [".pt"; ".pth"; ".ckpt"; ".safetensors"; ".bin"]
  /\ (exists k v, In (k, v) cn_model_module /\ substring_of k (path_name p))
  /\ (name_filter = ""
      \/ substring_of name_filter (lower (path_name p))).
Proof.
  unfold keep_model. fold cn_model_exts.
  destruct (path_is_file h p); cbn [andb negb];
    [|split; [done | by intros [? _]]].
  destruct (bool_decide (path_suffix p ∈ cn_model_exts)) eqn:Hs;
    cbn [andb negb].
  2: { apply bool_decide_eq_false_1 in Hs. rewrite list_elem_of_In in Hs.
       split; [done | by intros (_ & H & _)]. }
  apply bool_decide_eq_true_1 in Hs. rewrite list_elem_of_In in Hs.
  destruct (re_search cn_model_regex (path_name p)) eqn:Hr; cbn [andb negb].
  2: { assert (~ exists k v, In (k, v) cn_model_module
                             /\ substring_of k (path_name p)) as Hn.
       { rewrite <- re_search_spec. by rewrite Hr. }
       split; [done | by intros (_ & _ & H & _)]. }
  apply re_search_spec in Hr.
  destruct (String.eqb_spec name_filter "") as [He|He]; cbn [andb negb].
  { split; [intros _; repeat split; auto | done]. }
  destruct (str_in name_filter (lower (path_name p))) eqn:Hf; cbn [andb negb].
  - apply str_in_spec in Hf. split; [intros _; repeat split; auto | done].
  - apply str_in_false in Hf. split; [done | by intros (_ & _ & _ & [H|H])].
Qed.

Lemma scan_cn_models_fst (g : Globals) (h : Host) :
  fst (scan_cn_models g h) = List.map (format_model h) (scanned_paths g h).
Proof.
  unfold scan_cn_models, scanned_paths.
  by destruct (collect_models h _ _).
Qed.

Lemma scanned_paths_perm (g : Globals) (h : Host) :
  Permutation (scanned_paths g h)
    (List.filter
       (keep_model h
          (lower (strip_space (opts_get h "control_net_models_name_filter"))))
       (walk_dirs h (get_cn_model_dirs g h))).
Proof.
  unfold scanned_paths. rewrite collect_models_fst. apply sort_by_key_perm.
Qed.

(** *** Case and the name filter *)








(** *** The extension and the stem *)











(** ** Order of the catalog *)

Lemma filter_perm {A} (f : A -> bool) (l l' : list A) :
  Permutation l l' -> Permutation (List.filter f l) (List.filter f l').
Proof.
  induction 1 as [|x l l' Hp IH|x y l|l l' l'' H1 IH1 H2 IH2]; simpl.
  - done.
  - destruct (f x); [by constructor | done].
  - destruct (f x), (f y); try done. apply perm_swap.
  - by etrans.
Qed.

Lemma filter_ext_perm {A} (f f' : A -> bool) (l l' : list A) :
  (forall x, f x = f' x) -> Permutation l l' ->
  Permutation (List.filter f l) (List.filter f' l').
Proof.
  intros Hf Hp. rewrite (List.filter_ext f f' Hf). by apply filter_perm.
Qed.

Lemma path_stem_name (p q : Path) :
  path_name p = path_name q -> path_stem p = path_stem q.
Proof. unfold path_stem. by intros ->. Qed.

Lemma map_eq_by_key {A B} (key : A -> string) (f f' : A -> B)
  (l l' : list A) :
  List.map key l = List.map key l' ->
  (forall x y, In x l -> In y l' -> key x = key y -> f x = f' y) ->
  List.map f l = List.map f' l'.
Proof.
  revert l'. induction l as [|x l IH]; intros [|y l'] Hk Hf; simpl in *;
    try done.
  injection Hk as Hxy Hk. f_equal.
  - apply Hf; auto.
  - apply IH; [done|]. intros a b Ha Hb. apply Hf; auto.
Qed.

(** The catalog lists its files in ascending order of their names. *)
Lemma catalog_sorted_by_filename (g : Globals) (h : Host) :
  StronglySorted String.le (List.map path_name (scanned_paths g h)).
Proof. apply sort_by_key_sorted. Qed.

(** C8, as the code has it: the catalog lists its files in ascending
    order of their names; two scans that meet the same files, whatever the
    order in which the directories are listed and traversed, return the
    same catalog provided that catalog files of one name have one hash.
    Files of one name stay in the order the traversal met them. *)
Theorem catalog_order_independent (g1 g2 : Globals) (h1 h2 : Host) :
  (forall p, path_is_file h1 p = path_is_file h2 p) ->
  (forall p, model_hash h1 p = model_hash h2 p) ->
  opts_get h1 "control_net_models_name_filter"
  = opts_get h2 "control_net_models_name_filter" ->
  Permutation (walk_dirs h1 (get_cn_model_dirs g1 h1))
              (walk_dirs h2 (get_cn_model_dirs g2 h2)) ->
  (forall p q, In p (scanned_paths g1 h1) -> In q (scanned_paths g1 h1) ->
               path_name p = path_name q ->
               model_hash h1 p = model_hash h1 q) ->
  StronglySorted String.le (List.map path_name (scanned_paths g1 h1))
  /\ (forall name,
        List.filter (fun p => String.eqb (path_name p) name)
          (scanned_paths g1 h1)
        = List.filter (fun p => String.eqb (path_name p) name)
            (List.filter
               (keep_model h1
                  (lower (strip_space
                            (opts_get h1 "control_net_models_name_filter"))))
               (walk_dirs h1 (get_cn_model_dirs g1 h1))))
  /\ fst (scan_cn_models g1 h1) = fst (scan_cn_models g2 h2).
Proof.
  intros Hfile Hhash Hfilter Hwalk Hsame. split; [|split].
  - apply catalog_sorted_by_filename.
  - intros name. unfold scanned_paths. rewrite collect_models_fst.
    apply sort_by_key_stable.
  - rewrite !scan_cn_models_fst.
    set (nf := lower (strip_space
                        (opts_get h1 "control_net_models_name_filter"))).
    assert (Permutation
              (List.filter (keep_model h1 nf)
                 (walk_dirs h1 (get_cn_model_dirs g1 h1)))
              (List.filter (keep_model h2 nf)
                 (walk_dirs h2 (get_cn_model_dirs g2 h2)))) as Hkept.
    { apply filter_ext_perm; [|done].
      intros p. unfold keep_model. by rewrite Hfile. }
    assert (Permutation (scanned_paths g1 h1) (scanned_paths g2 h2)) as Hperm.
    { rewrite !scanned_paths_perm. by rewrite <- Hfilter. }
    apply (map_eq_by_key path_name).
    + unfold scanned_paths. rewrite !collect_models_fst.
      apply sorted_keys_unique. by rewrite <- Hfilter.
    + intros p q Hp Hq Hname. unfold format_model.
      rewrite (path_stem_name p q Hname), <- Hhash.
      rewrite (Hsame p q); [done | done | | done].
      eapply Permutation_in; [symmetry; apply Hperm | done].
Qed.

(** Two directories with files of different names, listed in either
    order, give one catalog. *)
Lemma catalog_order_independent_witness :
  fst (scan_cn_models (load_module (host_distinct_names "/a" "/b"))
         (host_distinct_names "/a" "/b"))
  = fst (scan_cn_models (load_module (host_distinct_names "/b" "/a"))
           (host_distinct_names "/b" "/a")).
Proof.
  refine (proj2 (proj2 (catalog_order_independent
            (load_module (host_distinct_names "/a" "/b"))
            (load_module (host_distinct_names "/b" "/a"))
            (host_distinct_names "/a" "/b") (host_distinct_names "/b" "/a")
            _ _ _ _ _))).
  - reflexivity.
  - reflexivity.
  - reflexivity.
  - vm_compute. apply perm_swap.
  - intros p q Hp Hq. vm_compute in Hp, Hq.
    destruct Hp as [<-|[<-|[]]]; destruct Hq as [<-|[<-|[]]];
      vm_compute; intros H; try reflexivity; discriminate H.
Defined.

(** C8, as stated, fails: with a file named [tile_v2.pth] of its own
    content in each of two directories, listing the directories in one
    order or the other meets the same files and returns two different
    catalogs. *)
Lemma catalog_depends_on_directory_order :
  let h1 := host_same_name "/a" "/b" in
  let h2 := host_same_name "/b" "/a" in
  Permutation (walk_dirs h1 (get_cn_model_dirs (load_module h1) h1))
              (walk_dirs h2 (get_cn_model_dirs (load_module h2) h2))
  /\ path_is_file h1 = path_is_file h2
  /\ model_hash h1 = model_hash h2
  /\ fst (scan_cn_models (load_module h1) h1)
     = ["tile_v2 [0a0a0a0a]"; "tile_v2 [0b0b0b0b]"]
  /\ fst (scan_cn_models (load_module h2) h2)
     = ["tile_v2 [0b0b0b0b]"; "tile_v2 [0a0a0a0a]"]
  /\ fst (scan_cn_models (load_module h1) h1)
     <> fst (scan_cn_models (load_module h2) h2).
Proof.
  repeat split.
  - vm_compute. apply perm_swap.
  - vm_compute. discriminate.
Qed.

(** ** Absence of the neighbor *)

Lemma discover_none (active : list Extension) :
  (forall e, In e active -> ext_enabled e = true ->
             ~ substring_of "sd-webui-controlnet" (ext_name e)) ->
  discover active
  = {| controlnet_exists := false; controlnet_path := None;
       cn_base_path := "" |}.
Proof.
  induction active as [|e active IH]; intros H; simpl; [done|].
  destruct (ext_enabled e) eqn:He; simpl.
  - assert (str_in "sd-webui-controlnet" (ext_name e) = false) as ->.
    { apply str_in_false. apply H; [by left | done]. }
    apply IH. intros e' Hin. apply H. by right.
  - apply IH. intros e' Hin. apply H. by right.
Qed.

Lemma run_op_turns_available (op : adapter_op) (self : ControlNetExt) :
  cn_available self = false ->
  cn_available (run_op op self) = true ->
  exists g h ext,
    op = OpInitControlnet g h
    /\ import_module h (cn_base_path g ++ ".scripts.external_code")
         "external_code" = Ok ext.
Proof.
  intros Hoff Hon. destruct op as [g h| |]; simpl in Hon; try congruence.
  destruct (init_controlnet_cases g h self) as [[e [_ Hr]] | [ext [Hi _]]].
  - rewrite Hr in Hon. simpl in Hon. congruence.
  - by exists g, h, ext.
Qed.

(** The flag turns true only through an [init_controlnet] whose import
    returned a module. *)
Lemma run_ops_turn_available (ops : list adapter_op) (self : ControlNetExt) :
  cn_available self = false ->
  cn_available (run_ops ops self) = true ->
  exists g h ext,
    In (OpInitControlnet g h) ops
    /\ import_module h (cn_base_path g ++ ".scripts.external_code")
         "external_code" = Ok ext.
Proof.
  revert self. induction ops as [|op ops IH]; intros self Hoff Hon;
    simpl in Hon; [congruence|].
  destruct (cn_available (run_op op self)) eqn:Hstep.
  - destruct (run_op_turns_available op self Hoff Hstep)
      as (g & h & ext & -> & Himp).
    exists g, h, ext. split; [by left | done].
  - destruct (IH _ Hstep Hon) as (g & h & ext & Hin & Himp).
    exists g, h, ext. split; [by right | done].
Qed.

(** C7, as the code has it: when no enabled extension of the host's
    active list carries the neighbor's name, the module records the
    neighbor as absent with an empty import prefix, and [get_cn_models]
    returns the empty list at once, whatever the host and the cache hold:
    it asks nothing of the file system or the hashing utility and leaves
    the cache as it was. The adapter starts with [cn_available] false; as
    [init_controlnet] does not look at the result of the discovery, the
    flag stays false through the operations of the process unless one of
    them is an [init_controlnet] whose import of [.scripts.external_code],
    the path built on the empty prefix, returns a module. *)
Theorem no_neighbor_empty_catalog (h0 : Host) :
  (forall e, In e (extensions_active h0) -> ext_enabled e = true ->
             ~ substring_of "sd-webui-controlnet" (ext_name e)) ->
  let g := load_module h0 in
  controlnet_exists g = false
  /\ cn_base_path g = ""
  /\ cn_available ControlNetExt_init = false
  /\ (forall ops,
        List.Forall (uses_globals g) ops ->
        cn_available (run_ops ops ControlNetExt_init) = true ->
        exists h ext,
          In (OpInitControlnet g h) ops
          /\ import_module h ".scripts.external_code" "external_code"
             = Ok ext)
  /\ (forall h cache, get_cn_models g h cache = ([], cache, [])).
Proof.
  intros Hnone g. subst g. unfold load_module.
  rewrite (discover_none _ Hnone). repeat split.
  intros ops Hops Hon.
  destruct (run_ops_turn_available ops ControlNetExt_init eq_refl Hon)
    as (g & h & ext & Hin & Himp).
  rewrite List.Forall_forall in Hops. specialize (Hops _ Hin).
  simpl in Hops. subst g. simpl in Himp. rewrite append_empty_l in Himp.
  by exists h, ext.
Qed.

(** A host with the neighbor installed but disabled, model files on disk
    and nothing to import: two calls of [init_controlnet] and a call of
    [update_scripts_args] leave the flag false, and the catalog is empty. *)
Lemma no_neighbor_empty_catalog_witness :
  controlnet_exists (load_module host_without_neighbor) = false
  /\ cn_available
       (run_ops
          [ OpInitControlnet (load_module host_without_neighbor)
              host_without_neighbor;
            OpUpdateScriptsArgs (mkProcessing []) "control_v11p_sd15_openpose"
              None 1%float 0%float 1%float PyNone;
            OpInitControlnet (load_module host_without_neighbor)
              host_without_neighbor ]
          ControlNetExt_init) = false
  /\ get_cn_models (load_module host_without_neighbor) host_without_neighbor
       None = ([], None, []).
Proof.
  assert (forall e, In e (extensions_active host_without_neighbor) ->
                    ext_enabled e = true ->
                    ~ substring_of "sd-webui-controlnet" (ext_name e)) as H.
  { intros e [<-|[<-|[]]] He; [discriminate He|].
    apply str_in_false. vm_compute. reflexivity. }
  destruct (no_neighbor_empty_catalog host_without_neighbor H)
    as (H1 & _ & _ & H4 & H5).
  split; [exact H1|]. split; [|apply H5].
  match goal with |- ?flag = false => destruct flag eqn:Hflag end;
    [|reflexivity].
  match type of Hflag with
  | cn_available (run_ops ?ops _) = true =>
      assert (List.Forall (uses_globals (load_module host_without_neighbor))
                ops) as Hops by (repeat constructor)
  end.
  destruct (H4 _ Hops Hflag) as (h & ext & [Hin|[Hin|[Hin|[]]]] & Himp);
    try discriminate Hin; injection Hin as <-; discriminate Himp.
Defined.

(** C7, as stated, fails: on a host with no enabled extension of the
    neighbor's name, where the module [.scripts.external_code] of a package
    [external_code] can be imported, [init_controlnet] sets [cn_available]
    on a fresh adapter, while the neighbor is recorded as absent. *)
Lemma flag_set_without_neighbor :
  (forall e, In e (extensions_active host_importable_without_neighbor) ->
             ext_enabled e = true ->
             ~ substring_of "sd-webui-controlnet" (ext_name e))
  /\ controlnet_exists (load_module host_importable_without_neighbor) = false
  /\ cn_available ControlNetExt_init = false
  /\ cn_available
       (snd (init_controlnet (load_module host_importable_without_neighbor)
               host_importable_without_neighbor ControlNetExt_init))
     = true.
Proof.
  split; [|by vm_compute].
  intros e [<-|[<-|[]]] He; [discriminate He|].
  apply str_in_false. vm_compute. reflexivity.
Qed.

(** ** Memoization *)

Lemma call_again_cached (g : Globals) (later : list Host)
  (models : list string) :
  call_again g later (Some models)
  = (List.map (fun _ => (models, [])) later, Some models).
Proof.
  induction later as [|h later IH]; simpl; [done|]. by rewrite IH.
Qed.

(** C9: after the first call of the scanner, every later call returns the
    list of the first call and asks nothing of the file system or the
    hashing utility, whatever the files and the settings of the host are by
    then; the cache still holds that list after the last call. *)
Theorem scan_memoized (g : Globals) (first_host : Host) (later : list Host) :
  let first := _get_cn_models g first_host None in
  let models := fst (fst first) in
  let cache := snd (fst first) in
  models = fst (scan_cn_models g first_host)
  /\ cache = Some models
  /\ Forall (fun r => r = (models, [])) (fst (call_again g later cache))
  /\ List.length (fst (call_again g later cache)) = List.length later
  /\ snd (call_again g later cache) = cache.
Proof.
  simpl. destruct (scan_cn_models g first_host) as [models evs]. simpl.
  rewrite call_again_cached. simpl. repeat split.
  - apply List.Forall_forall. intros r Hr.
    apply in_map_iff in Hr as [h [<- _]]. done.
  - apply length_map.
Qed.

(** ** Discovery of the neighbor *)

Lemma discover_skip (e : Extension) (rest : list Extension) :
  (ext_enabled e = true ->
   ~ substring_of "sd-webui-controlnet" (ext_name e)) ->
  discover (e :: rest) = discover rest.
Proof.
  intros H. simpl. destruct (ext_enabled e); simpl; [|done].
  assert (str_in "sd-webui-controlnet" (ext_name e) = false) as ->; [|done].
  apply str_in_false. by apply H.
Qed.

Lemma discover_hit (e : Extension) (rest : list Extension) :
  ext_enabled e = true ->
  substring_of "sd-webui-controlnet" (ext_name e) ->
  discover (e :: rest)
  = {| controlnet_exists := true;
       controlnet_path := Some (Path_of_str (ext_path e));
       cn_base_path := join "." (last_two (Path_of_str (ext_path e))) |}.
Proof.
  intros He Hn. simpl. rewrite He. simpl.
  apply str_in_spec in Hn. by rewrite Hn.
Qed.

(** X1: the discovery selects the first enabled extension whose name
    holds "sd-webui-controlnet": extensions before it that are disabled or
    named otherwise are passed over, extensions after it are not looked
    at, and the path and the import prefix are those of the selected
    one. *)
Theorem discover_first_enabled_match (pre post : list Extension)
  (e : Extension) :
  ext_enabled e = true ->
  substring_of "sd-webui-controlnet" (ext_name e) ->
  (forall e', In e' pre -> ext_enabled e' = true ->
              ~ substring_of "sd-webui-controlnet" (ext_name e')) ->
  discover (pre ++ e :: post)%list
  = {| controlnet_exists := true;
       controlnet_path := Some (Path_of_str (ext_path e));
       cn_base_path := join "." (last_two (Path_of_str (ext_path e))) |}.
Proof.
  intros He Hn Hpre. induction pre as [|e' pre IH].
  - by apply discover_hit.
  - change ((e' :: pre) ++ e :: post)%list with (e' :: (pre ++ e :: post))%list.
    rewrite discover_skip.
    + apply IH. intros e2 Hin. apply Hpre. by right.
    + apply Hpre. by left.
Qed.

(** A disabled copy of the neighbor and another extension come first, a
    second enabled copy comes last. *)
Lemma discover_first_enabled_match_witness :
  load_module (host_with_neighbor listing_api)
  = {| controlnet_exists := true;
       controlnet_path :=
         Some ["/"; "sd"; "extensions"; "sd-webui-controlnet-master"];
       cn_base_path := "extensions.sd-webui-controlnet-master" |}.
Proof.
  refine (discover_first_enabled_match
            [ mkExtension true "adetailer" "/sd/extensions/adetailer";
              mkExtension false "sd-webui-controlnet-old"
                "/sd/extensions/sd-webui-controlnet-old" ]
            [ mkExtension true "sd-webui-controlnet"
                "/sd/extensions-builtin/sd-webui-controlnet" ]
            (mkExtension true "sd-webui-controlnet-master"
               "/sd/extensions/sd-webui-controlnet-master")
            _ _ _).
  - reflexivity.
  - apply str_in_spec. vm_compute. reflexivity.
  - intros e' [<-|[<-|[]]] He.
    + apply str_in_false. vm_compute. reflexivity.
    + discriminate He.
Defined.

(** X2: the three globals of the discovery agree. The neighbor is recorded
    as present exactly when some enabled extension carries its name, and
    exactly when a path is recorded; the import prefix is then the last two
    components of that path joined by a dot, and it is empty when no path
    is recorded. *)
Theorem discover_globals_agree (active : list Extension) :
  let g := discover active in
  (controlnet_exists g = true <->
   exists e, In e active /\ ext_enabled e = true
             /\ substring_of "sd-webui-controlnet" (ext_name e))
  /\ (controlnet_exists g = true <-> exists cp, controlnet_path g = Some cp)
  /\ match controlnet_path g with
     | Some cp => cn_base_path g = join "." (last_two cp)
     | None => cn_base_path g = ""
     end.
Proof.
  induction active as [|e active IH]; simpl.
  - repeat split; try done.
    + intros (e & [] & _).
    + intros [cp H]. discriminate H.
  - destruct IH as (IH1 & IH2 & IH3).
    destruct (ext_enabled e) eqn:He; simpl.
    + destruct (str_in "sd-webui-controlnet" (ext_name e)) eqn:Hn; simpl.
      * repeat split; try done; [|by eexists].
        intros _. exists e. split; [by left|]. split; [done|].
        by apply str_in_spec.
      * apply str_in_false in Hn. split; [|done]. rewrite IH1. split.
        -- intros (e' & Hin & H). exists e'. split; [by right | done].
        -- intros (e' & [<-|Hin] & He' & Hn'); [done|]. by exists e'.
    + split; [|done]. rewrite IH1. split.
      * intros (e' & Hin & H). exists e'. split; [by right | done].
      * intros (e' & [<-|Hin] & He' & Hn'); [congruence|]. by exists e'.
Qed.

(** ** The import search path *)

Lemma removelast_snoc {A} (l : list A) (x : A) :
  List.removelast (l ++ [x])%list = l.
Proof. apply List.removelast_last. Qed.

(** X3: the extension of the search path adds at most one entry, at the
    end, and nothing when no neighbor was found; a second run changes
    nothing; a search path without repetitions stays without. *)
Theorem extend_sys_path_once (resolve : Path -> Path) (g : Globals)
  (sys_path : list string) :
  let extended := extend_sys_path resolve g sys_path in
  (extended = sys_path
   \/ exists target, ~ In target sys_path
                     /\ extended = (sys_path ++ [target])%list)
  /\ extend_sys_path resolve g extended = extended
  /\ (List.NoDup sys_path -> List.NoDup extended)
  /\ (controlnet_path g = None -> extended = sys_path).
Proof.
  unfold extend_sys_path.
  destruct (controlnet_path g) as [cp|]; [|by repeat split; auto].
  destruct (bool_decide (path_stem _ ∈ _)); [|by repeat split; auto].
  set (target := Path_to_str _).
  destruct (bool_decide (target ∈ sys_path)) eqn:Hin.
  - rewrite Hin. by repeat split; auto.
  - apply bool_decide_eq_false_1 in Hin. rewrite list_elem_of_In in Hin.
    assert (bool_decide (target ∈ (sys_path ++ [target])%list) = true) as ->.
    { apply bool_decide_eq_true_2. apply list_elem_of_In, in_or_app.
      right. by left. }
    repeat split.
    + right. by exists target.
    + intros Hnd. apply List.NoDup_app; [done | repeat constructor; by intros [] |].
      intros x Hx [<-|[]]. done.
    + done.
Qed.

Lemma discover_base_path (active : list Extension) :
  match controlnet_path (discover active) with
  | Some cp => cn_base_path (discover active) = join "." (last_two cp)
  | None => cn_base_path (discover active) = ""
  end.
Proof.
  induction active as [|e active IH]; simpl; [done|].
  destruct (ext_enabled e); simpl; [|done].
  by destruct (str_in "sd-webui-controlnet" (ext_name e)).
Qed.

Lemma last_two_app (root : Path) (a b : string) :
  last_two (root ++ [a; b])%list = [a; b].
Proof.
  unfold last_two. rewrite List.length_app. simpl.
  replace (List.length root + 2 - 2) with (List.length root) by lia.
  rewrite List.skipn_app, List.skipn_all, Nat.sub_diag. done.
Qed.

Lemma path_parent_snoc (root : Path) (a : string) :
  (root <> [] \/ is_root a = false) ->
  path_parent (root ++ [a])%list = root.
Proof.
  intros H. destruct root as [|r [|x root]].
  - destruct H as [H|H]; [done|]. simpl. by rewrite H.
  - reflexivity.
  - change (path_parent ((r :: x :: root) ++ [a])%list)
      with (List.removelast ((r :: x :: root) ++ [a])%list).
    apply removelast_snoc.
Qed.

Lemma path_name_snoc (root : Path) (a : string) :
  is_root a = false -> path_name (root ++ [a])%list = a.
Proof.
  intros H. unfold path_name. rewrite List.rev_app_distr. simpl.
  by rewrite H.
Qed.

(** X4: the two halves of the discovery fit together. For a neighbor
    found at [root/extensions/name] or [root/extensions-builtin/name], a
    path that [resolve] leaves as it is, the module that
    [init_controlnet] imports is named by the last two components,
    [extensions.name.scripts.external_code], and the extended search path
    holds [root], the directory those two components are relative to. *)
Theorem import_prefix_matches_search_path (active : list Extension)
  (resolve : Path -> Path) (sys_path : list string) (root : Path)
  (a b : string) :
  In a ["extensions"; "extensions-builtin"] ->
  controlnet_path (discover active) = Some (root ++ [a; b])%list ->
  resolve (root ++ [a; b])%list = (root ++ [a; b])%list ->
  let g := discover active in
  cn_base_path g ++ ".scripts.external_code"
  = a ++ "." ++ b ++ ".scripts.external_code"
  /\ In (Path_to_str root) (extend_sys_path resolve g sys_path).
Proof.
  intros Ha Hcp Hres g. subst g. split.
  - pose proof (discover_base_path active) as Hb. rewrite Hcp in Hb.
    rewrite Hb, last_two_app.
    change (join "." [a; b]) with (a ++ "." ++ b).
    by rewrite !append_assoc.
  - unfold extend_sys_path. rewrite Hcp, Hres.
    assert (is_root a = false) as Hne.
    { by destruct Ha as [<-|[<-|[]]]. }
    change (root ++ [a; b])%list with (root ++ [a] ++ [b])%list.
    rewrite List.app_assoc.
    rewrite (path_parent_snoc (root ++ [a])%list b)
      by (left; by destruct root).
    assert (path_stem (root ++ [a])%list = a) as ->.
    { unfold path_stem. rewrite path_name_snoc by done.
      destruct Ha as [<-|[<-|[]]]; reflexivity. }
    rewrite bool_decide_eq_true_2
      by (apply list_elem_of_In; exact Ha).
    rewrite (path_parent_snoc root a) by (by right).
    destruct (bool_decide (Path_to_str root ∈ sys_path)) eqn:Hin.
    + apply bool_decide_eq_true_1 in Hin. by apply list_elem_of_In.
    + apply in_or_app. right. by left.
Qed.

(** The neighbor under [/sd/extensions], on a search path that does not
    hold [/sd] yet. *)
Lemma import_prefix_matches_search_path_witness :
  cn_base_path (load_module (host_with_neighbor listing_api))
    ++ ".scripts.external_code"
  = "extensions.sd-webui-controlnet-master.scripts.external_code"
  /\ In "/sd"
       (extend_sys_path (fun p => p)
          (load_module (host_with_neighbor listing_api))
          ["/usr/lib/python3"]).
Proof.
  refine (import_prefix_matches_search_path
            (extensions_active (host_with_neighbor listing_api))
            (fun p => p) ["/usr/lib/python3"] ["/"; "sd"]
            "extensions" "sd-webui-controlnet-master" _ _ _).
  - left. reflexivity.
  - reflexivity.
  - reflexivity.
Defined.

(** ** Initialisation of the adapter *)

Lemma init_controlnet_ok (g : Globals) (h : Host) (self : ControlNetExt)
  (ext : external_code) (models : list string) :
  import_module h (cn_base_path g ++ ".scripts.external_code")
    "external_code" = Ok ext ->
  get_models ext = Ok models ->
  init_controlnet g h self
  = (Ok tt,
     {| cn_models :=
          (cn_models self
           ++ List.filter (fun m => re_search cn_model_regex m) models)%list;
        cn_available := true;
        external_cn := Some ext |}).
Proof.
  intros Himp Hmod. unfold init_controlnet. by rewrite Himp, Hmod.
Qed.


Lemma scan_table_sound (table : list (string * string)) (model v : string) :
  scan_table table model = Some v ->
  exists k, In (k, v) table /\ substring_of k model.
Proof.
  induction table as [|[k v'] table IH]; simpl; [done|].
  destruct (str_in k model) eqn:Hk.
  - intros [= <-]. exists k. split; [by left|]. by apply str_in_spec.
  - intros H. destruct (IH H) as [k' [Hin Hs]]. exists k'. split; [by right|done].
Qed.

Lemma scan_table_complete (table : list (string * string)) (model k v : string) :
  In (k, v) table -> substring_of k model ->
  exists v', scan_table table model = Some v'.
Proof.
  induction table as [|[k' v'] table IH]; simpl; [done|].
  intros Hin Hs. destruct (str_in k' model) eqn:Hk; [by eexists|].
  destruct Hin as [[= -> ->]|Hin]; [|by apply IH].
  apply str_in_spec in Hs. congruence.
Qed.

Lemma resolve_module_unspecified (model : string) :
  resolve_module model None = scan_table cn_model_module model.
Proof. reflexivity. Qed.

(** X6: the table and the pattern built from its keys agree. A model name
    passes the pattern exactly when [update_scripts_args] resolves a module
    for it without help from the caller, and a module resolved that way is
    the table's value for a key that occurs in the name. *)
Theorem pattern_iff_module_resolved (model : string) :
  (re_search cn_model_regex model = true <->
   exists v, resolve_module model None = Some v)
  /\ (forall v, resolve_module model None = Some v ->
                exists k, In (k, v) cn_model_module /\ substring_of k model)
  /\ (re_search cn_model_regex model = false <->
      resolve_module model None = None).
Proof.
  assert (re_search cn_model_regex model = true <->
          exists v, resolve_module model None = Some v) as Hiff.
  { rewrite re_search_spec, resolve_module_unspecified. split.
    - intros (k & v & Hin & Hs). by eapply scan_table_complete.
    - intros [v Hv]. apply scan_table_sound in Hv as [k [Hin Hs]].
      by exists k, v. }
  split; [done|]. split.
  - intros v Hv. by apply scan_table_sound.
  - destruct (re_search cn_model_regex model).
    + split; [done|]. intros Hn. destruct (proj1 Hiff eq_refl) as [v Hv].
      congruence.
    + split; [|done]. intros _.
      destruct (resolve_module model None) as [v|] eqn:Hv; [|done].
      assert (false = true) by (apply Hiff; by exists v). done.
Qed.

Lemma filter_Forall {A} (f : A -> bool) (l : list A) :
  List.Forall (fun x => f x = true) (List.filter f l).
Proof.
  apply List.Forall_forall. intros x Hx. by apply filter_In in Hx as [_ Hx].
Qed.

Lemma run_op_cn_models (op : adapter_op) (self : ControlNetExt)
  (rest : list string) :
  cn_models self = "None" :: rest ->
  List.Forall (fun m => re_search cn_model_regex m = true) rest ->
  exists rest',
    cn_models (run_op op self) = "None" :: rest'
    /\ List.Forall (fun m => re_search cn_model_regex m = true) rest'.
Proof.
  intros Hm Hrest. destruct op as [g h| |]; simpl; try by exists rest.
  unfold init_controlnet.
  destruct (import_module h _ _) as [ext|e]; simpl; [|by exists rest].
  destruct (get_models ext) as [models|e]; simpl; [|by exists rest].
  rewrite Hm. eexists. split; [reflexivity|].
  apply List.Forall_app. split; [done | apply filter_Forall].
Qed.

Lemma run_ops_cn_models (ops : list adapter_op) (self : ControlNetExt)
  (rest : list string) :
  cn_models self = "None" :: rest ->
  List.Forall (fun m => re_search cn_model_regex m = true) rest ->
  exists rest',
    cn_models (run_ops ops self) = "None" :: rest'
    /\ List.Forall (fun m => re_search cn_model_regex m = true) rest'.
Proof.
  revert self rest. induction ops as [|op ops IH]; intros self rest Hm Hrest;
    simpl.
  - by exists rest.
  - destruct (run_op_cn_models op self rest Hm Hrest) as (r & Hr & Hf).
    by apply (IH _ r).
Qed.

(** X7: the model list of the adapter, after any sequence of operations
    on a fresh adapter, starts with the sentinel "None"; every entry after
    it holds a key of the keyword table, so [update_scripts_args] resolves
    a module for it. *)
Theorem cn_models_sentinel_then_known (ops : list adapter_op) :
  exists rest,
    cn_models (run_ops ops ControlNetExt_init) = "None" :: rest
    /\ List.Forall
         (fun m => exists k v, In (k, v) cn_model_module /\ substring_of k m)
         rest
    /\ List.Forall (fun m => exists v, resolve_module m None = Some v) rest.
Proof.
  destruct (run_ops_cn_models ops ControlNetExt_init [] eq_refl
              (List.Forall_nil _)) as (rest & Hm & Hf).
  exists rest. split; [done|]. split.
  - eapply List.Forall_impl; [|exact Hf]. intros m Hs.
    by apply re_search_spec.
  - eapply List.Forall_impl; [|exact Hf]. intros m Hs.
    apply re_search_spec in Hs as (k & v & Hin & Hs).
    rewrite resolve_module_unspecified. by eapply scan_table_complete.
Qed.

(** X8: [init_controlnet] appends. A second successful call on the same
    host appends the neighbor's matching models a second time: the list
    then holds them twice, the handle and the availability stay. *)
Theorem init_controlnet_appends_again (g : Globals) (h : Host)
  (self : ControlNetExt) (ext : external_code) (models : list string) :
  import_module h (cn_base_path g ++ ".scripts.external_code")
    "external_code" = Ok ext ->
  get_models ext = Ok models ->
  let matching := List.filter (fun m => re_search cn_model_regex m) models in
  let once := snd (init_controlnet g h self) in
  let twice := snd (init_controlnet g h once) in
  cn_models once = (cn_models self ++ matching)%list
  /\ cn_models twice = (cn_models self ++ matching ++ matching)%list
  /\ external_cn twice = Some ext
  /\ cn_available twice = true.
Proof.
  intros Himp Hmod matching once twice. subst once twice.
  rewrite !(init_controlnet_ok g h _ ext models Himp Hmod). simpl.
  by rewrite <- List.app_assoc.
Qed.

(** The neighbor lists an openpose and a canny model; the adapter keeps
    the first, once per call. *)
Lemma init_controlnet_appends_again_witness :
  let h := host_with_neighbor listing_api in
  let g := load_module h in
  cn_models (snd (init_controlnet g h ControlNetExt_init))
  = ["None"; "control_v11p_sd15_openpose [cab727d4]"]
  /\ cn_models (snd (init_controlnet g h
                       (snd (init_controlnet g h ControlNetExt_init))))
     = ["None"; "control_v11p_sd15_openpose [cab727d4]";
        "control_v11p_sd15_openpose [cab727d4]"].
Proof.
  pose proof (init_controlnet_appends_again
                (load_module (host_with_neighbor listing_api))
                (host_with_neighbor listing_api) ControlNetExt_init
                listing_api
                ["control_v11p_sd15_openpose [cab727d4]";
                 "control_v11p_sd15_canny [d14c016b]"]
                eq_refl eq_refl) as (H1 & H2 & _).
  split; [exact H1 | exact H2].
Defined.

(** ** The scan of the script arguments *)

Lemma getitem_dict_present (d : gmap string pyval) (k : string) :
  is_None (dict_get d k) = false ->
  exists v, d !! k = Some v /\ getitem (PyDict d) k = Ok v
            /\ is_None v = false.
Proof.
  unfold dict_get. simpl. destruct (d !! k) as [v|]; [|done].
  intros H. by exists v.
Qed.

Lemma eq_str_get (d : gmap string pyval) (k s : string) :
  eq_str (dict_get d k) s = true -> d !! k = Some (PyStr s).
Proof.
  unfold dict_get. destruct (d !! k) as [[]|]; simpl; try done.
  intros H. apply String.eqb_eq in H. by subst.
Qed.

(** X9: what the scan returns is carried by an argument. A result other
    than [None] is the "image" entry of the image dict of a native unit
    set to the face-identity module, or the "input_image" entry of a dict
    whose "module" entry is the face-identity module. *)
Theorem extract_face_id_sound (self : ControlNetExt)
  (script_args : list pyval) (v : pyval) :
  extract_face_id_from_controlnet self script_args = Ok v ->
  is_None v = false ->
  (exists u d, In (PyUnit u) script_args
               /\ unit_module u = Some face_id_module
               /\ unit_image u = PyDict d
               /\ d !! "image" = Some v)
  \/ (exists d, In (PyDict d) script_args
                /\ d !! "module" = Some (PyStr face_id_module)
                /\ d !! "input_image" = Some v).
Proof.
  intros Hres Hv. induction script_args as [|arg rest IH]; simpl in Hres.
  - injection Hres as <-. done.
  - assert (extract_face_id_from_controlnet self rest = Ok v ->
            (exists u d, In (PyUnit u) (arg :: rest)
                         /\ unit_module u = Some face_id_module
                         /\ unit_image u = PyDict d
                         /\ d !! "image" = Some v)
            \/ (exists d, In (PyDict d) (arg :: rest)
                          /\ d !! "module" = Some (PyStr face_id_module)
                          /\ d !! "input_image" = Some v)) as Hrest.
    { intros H. destruct (IH H) as [(u & d & Hin & H')|(d & Hin & H')].
      - left. exists u, d. split; [by right | done].
      - right. exists d. split; [by right | done]. }
    destruct (getattr_external_cn self "ControlNetUnit"); simpl in Hres;
      [|done].
    destruct arg as [| | | | | |d|u]; try by apply Hrest.
    + destruct (eq_str _ face_id_module) eqn:Hm; simpl in Hres;
        [|by apply Hrest].
      destruct (is_None (dict_get d "input_image")) eqn:Hi; simpl in Hres;
        [by apply Hrest|].
      apply getitem_dict_present in Hi as (w & Hw & _ & _).
      rewrite Hw in Hres. injection Hres as ->.
      right. exists d. split; [by left|]. split; [|done].
      by apply eq_str_get.
    + destruct (bool_decide (unit_module u = Some face_id_module)) eqn:Hm;
        [|by apply Hrest].
      apply bool_decide_eq_true_1 in Hm.
      destruct (unit_image u) as [| | | | | |d|] eqn:Himg; try done.
      simpl in Hres. destruct (d !! "image") as [w|] eqn:Hw; [|done].
      injection Hres as ->. left. exists u, d. split; [by left | done].
Qed.

(** A dict with an image behind a unit of another module. *)
Lemma extract_face_id_sound_witness :
  exists d, In (PyDict d)
              [PyUnit (mkControlNetUnit "control_v11p_sd15_canny" 1%float
                         BALANCED (Some "canny") 0%float 1%float true
                         PyNone false);
               face_id_dict (PyImage 7)]
            /\ d !! "module" = Some (PyStr face_id_module)
            /\ d !! "input_image" = Some (PyImage 7).
Proof.
  destruct (extract_face_id_sound (ready_adapter appending_api)
              [PyUnit (mkControlNetUnit "control_v11p_sd15_canny" 1%float
                         BALANCED (Some "canny") 0%float 1%float true
                         PyNone false);
               face_id_dict (PyImage 7)]
              (PyImage 7) eq_refl eq_refl)
    as [(u & d & [H|[H|[]]] & Hm & _)|H].
  - injection H as <-. discriminate Hm.
  - discriminate H.
  - exact H.
Defined.

(** What the subscript [image["image"]] raises: [TypeError] on a value
    that cannot be subscripted or not by a string, [IndexError] on an
    array, [KeyError] on a dict without the key. *)
Lemma getitem_raises (v : pyval) (k : string) (e : exn) :
  getitem v k = Raise e ->
  match v with
  | PyDict _ => e = KeyError k
  | PyImage _ => exists msg, e = IndexError msg
  | _ => exists msg, e = TypeError msg
  end.
Proof.
  destruct v as [| | | | | |d|]; simpl; try (intros [= <-]; by eexists).
  destruct (d !! k); [done|]. by intros [= <-].
Qed.

(** X10: where the scan raises. On an adapter that holds the handle the
    scan raises only at a native unit set to the face-identity module
    whose image is not a dict with an "image" entry, and the exception is
    that of the subscript: [KeyError] when the image is a dict,
    [IndexError] when it is an array, [TypeError] otherwise. Dicts and the
    other arguments never make it raise. *)
Theorem extract_face_id_raises_at_unit (self : ControlNetExt)
  (ext : external_code) (script_args : list pyval) (e : exn) :
  external_cn self = Some ext ->
  extract_face_id_from_controlnet self script_args = Raise e ->
  exists u, In (PyUnit u) script_args
            /\ unit_module u = Some face_id_module
            /\ getitem (unit_image u) "image" = Raise e
            /\ match unit_image u with
               | PyDict d => d !! "image" = None /\ e = KeyError "image"
               | PyImage _ => exists msg, e = IndexError msg
               | _ => exists msg, e = TypeError msg
               end.
Proof.
  intros Hext. induction script_args as [|arg rest IH]; [done|].
  rewrite (extract_face_id_cons self ext) by done.
  assert (extract_face_id_from_controlnet self rest = Raise e ->
          exists u, In (PyUnit u) (arg :: rest)
                    /\ unit_module u = Some face_id_module
                    /\ getitem (unit_image u) "image" = Raise e
                    /\ match unit_image u with
                       | PyDict d =>
                           d !! "image" = None /\ e = KeyError "image"
                       | PyImage _ => exists msg, e = IndexError msg
                       | _ => exists msg, e = TypeError msg
                       end) as Hrest.
  { intros H. destruct (IH H) as (u & Hin & H').
    exists u. split; [by right | done]. }
  destruct arg as [| | | | | |d|u]; try done.
  - destruct (eq_str _ face_id_module); simpl; [|done].
    destruct (is_None (dict_get d "input_image")) eqn:Hi; simpl; [done|].
    apply getitem_dict_present in Hi as (w & _ & Hw & _).
    simpl in Hw. rewrite Hw. done.
  - destruct (bool_decide (unit_module u = Some face_id_module)) eqn:Hm;
      [|done].
    apply bool_decide_eq_true_1 in Hm. intros Hres.
    exists u. split; [by left|]. split; [done|]. split; [done|].
    pose proof (getitem_raises _ _ _ Hres) as Hkind.
    destruct (unit_image u) as [| | | | | |d|]; try done.
    split; [|done]. simpl in Hres. by destruct (d !! "image").
Qed.

(** A native face-identity unit whose image dict holds a mask alone, and
    one whose image is an array. *)
Lemma extract_face_id_raises_at_unit_witness :
  (exists u, In (PyUnit u)
               [PyUnit (face_id_unit (PyDict {[ "mask" := PyImage 3 ]}))]
             /\ unit_module u = Some face_id_module
             /\ getitem (unit_image u) "image" = Raise (KeyError "image")
             /\ match unit_image u with
                | PyDict d =>
                    d !! "image" = None
                    /\ KeyError "image" = KeyError "image"
                | PyImage _ => exists msg, KeyError "image" = IndexError msg
                | _ => exists msg, KeyError "image" = TypeError msg
                end)
  /\ (exists u msg, In (PyUnit u) [PyUnit (face_id_unit (PyImage 3))]
                    /\ getitem (unit_image u) "image"
                       = Raise (IndexError msg)).
Proof.
  split.
  - exact (extract_face_id_raises_at_unit (ready_adapter appending_api)
             appending_api
             [PyUnit (face_id_unit (PyDict {[ "mask" := PyImage 3 ]}))]
             (KeyError "image") eq_refl eq_refl).
  - destruct (extract_face_id_raises_at_unit (ready_adapter appending_api)
                appending_api [PyUnit (face_id_unit (PyImage 3))]
                _ eq_refl eq_refl) as (u & Hin & _ & Hget & _).
    exists u. eexists. split; [exact Hin | exact Hget].
Defined.

Lemma extract_face_id_filter (self : ControlNetExt) (ext : external_code)
  (script_args : list pyval) :
  external_cn self = Some ext ->
  extract_face_id_from_controlnet self script_args
  = extract_face_id_from_controlnet self
      (List.filter face_id_candidate script_args).
Proof.
  intros Hext. induction script_args as [|arg rest IH]; [done|].
  rewrite (extract_face_id_cons self ext) by done.
  destruct arg as [| | | | | |d|u]; simpl; try done.
  - destruct (eq_str _ face_id_module && negb _) eqn:Hc; [|done].
    rewrite (extract_face_id_cons self ext) by done. by rewrite Hc.
  - destruct (bool_decide (unit_module u = Some face_id_module)) eqn:Hc;
      [|done].
    rewrite (extract_face_id_cons self ext) by done. by rewrite Hc.
Qed.

Lemma filter_head {A} (f : A -> bool) (l : list A) (x : A) (rest : list A) :
  List.filter f l = x :: rest -> f x = true.
Proof.
  intros H. assert (In x (List.filter f l)) as Hin by (rewrite H; by left).
  by apply filter_In in Hin as [_ Hx].
Qed.

(** X11: the first candidate decides the scan. On an adapter that holds
    the handle, the arguments that are neither a native unit set to the
    face-identity module nor a dict set to it with an input image are
    passed over; without a candidate the result is [None], and otherwise
    it is the result on the first candidate alone, whatever follows it. *)
Theorem extract_face_id_skips_others (self : ControlNetExt)
  (ext : external_code) (script_args : list pyval) :
  external_cn self = Some ext ->
  extract_face_id_from_controlnet self script_args
  = match List.filter face_id_candidate script_args with
    | [] => Ok PyNone
    | candidate :: _ => extract_face_id_from_controlnet self [candidate]
    end.
Proof.
  intros Hext. rewrite (extract_face_id_filter self ext) by done.
  destruct (List.filter face_id_candidate script_args) as [|c rest] eqn:Hf;
    [done|].
  pose proof (filter_head _ _ _ _ Hf) as Hc.
  rewrite !(extract_face_id_cons self ext) by done.
  destruct c as [| | | | | |d|u]; simpl in Hc; try done; by rewrite Hc.
Qed.

(** Flags, numbers and a unit of another module around a dict with an
    image. *)
Lemma extract_face_id_skips_others_witness :
  extract_face_id_from_controlnet (ready_adapter appending_api)
    [PyBool true; PyInt 3; face_id_dict PyNone;
     PyUnit (mkControlNetUnit "control_v11p_sd15_canny" 1%float BALANCED
               (Some "canny") 0%float 1%float true PyNone false);
     face_id_dict (PyImage 7); PyStr "x"]
  = extract_face_id_from_controlnet (ready_adapter appending_api)
      [face_id_dict (PyImage 7)].
Proof.
  exact (extract_face_id_skips_others (ready_adapter appending_api)
           appending_api
           [PyBool true; PyInt 3; face_id_dict PyNone;
            PyUnit (mkControlNetUnit "control_v11p_sd15_canny" 1%float
                      BALANCED (Some "canny") 0%float 1%float true PyNone
                      false);
            face_id_dict (PyImage 7); PyStr "x"]
           eq_refl).
Defined.

(** On an adapter without the handle empty script arguments give [None],
    as no argument is tested; any other script arguments raise
    [AttributeError] at the first test. *)
Lemma extract_face_id_without_handle (self : ControlNetExt)
  (script_args : list pyval) :
  external_cn self = None ->
  extract_face_id_from_controlnet self script_args
  = match script_args with
    | [] => Ok PyNone
    | _ :: _ =>
        Raise (AttributeError
                 "'NoneType' object has no attribute 'ControlNetUnit'")
    end.
Proof.
  intros Hnull. destruct script_args as [|arg rest]; [done|].
  simpl. unfold getattr_external_cn. by rewrite Hnull.
Qed.

(** ** More on the argument builder *)

(** X12: when the script arguments are not consulted. With an image from
    the caller, or with a module other than the face-identity one, a call
    past the guards builds its one unit from the arguments of the call
    alone and hands it to the merge, whatever the script arguments of the
    request hold; the crop flag is set exactly when no image was given. *)
Theorem update_scripts_args_without_scan (self : ControlNetExt)
  (p : Processing) (model : string) (module : option string)
  (weight guidance_start guidance_end : float) (input_image : pyval)
  (ext : external_code) :
  cn_available self = true -> model <> "None" ->
  external_cn self = Some ext ->
  is_None input_image = false
  \/ resolve_module model module <> Some face_id_module ->
  let u :=
    mkControlNetUnit model weight BALANCED (resolve_module model module)
      guidance_start guidance_end true input_image (is_None input_image) in
  update_scripts_args self p model module weight guidance_start guidance_end
    input_image
  = mkOutcome
      (translate_merge_error
         (fst (update_cn_script_in_processing ext p [u])))
      (snd (update_cn_script_in_processing ext p [u]))
      [NewControlNetUnit u; UpdateCnScript p [u]].
Proof.
  intros Hav Hm Hext Hcase u. subst u.
  apply update_scripts_args_past_guards; try done.
  destruct Hcase as [Himg|Hmod].
  - rewrite Himg. by apply choose_image_given.
  - by apply choose_image_other_module.
Qed.

(** A request that holds a native face-identity unit without an image,
    and a caller that brings its own image. *)
Lemma update_scripts_args_without_scan_witness :
  calls (update_scripts_args (ready_adapter appending_api)
           (mkProcessing [PyUnit (face_id_unit PyNone)])
           "ip-adapter-faceid-plusv2_sd15" None 1%float 0%float 1%float
           (PyImage 7))
  = [ NewControlNetUnit
        (mkControlNetUnit "ip-adapter-faceid-plusv2_sd15" 1%float BALANCED
           (Some face_id_module) 0%float 1%float true (PyImage 7) false);
      UpdateCnScript (mkProcessing [PyUnit (face_id_unit PyNone)])
        [ mkControlNetUnit "ip-adapter-faceid-plusv2_sd15" 1%float BALANCED
            (Some face_id_module) 0%float 1%float true (PyImage 7) false ] ].
Proof.
  refine (f_equal calls
            (update_scripts_args_without_scan (ready_adapter appending_api)
               (mkProcessing [PyUnit (face_id_unit PyNone)])
               "ip-adapter-faceid-plusv2_sd15" None 1%float 0%float 1%float
               (PyImage 7) appending_api _ _ _ _)).
  - reflexivity.
  - discriminate.
  - reflexivity.
  - left. reflexivity.
Defined.

(** X13: the merge decides the outcome. Unless the merge raises an
    [AttributeError], the call returns what the merge returned, normally or
    with the very exception of the merge, and the request is in either
    case as the merge left it. *)
Theorem merge_outcome_passed_on (self : ControlNetExt) (p p' : Processing)
  (model : string) (module : option string)
  (weight guidance_start guidance_end : float) (input_image image : pyval)
  (crop : bool) (ext : external_code) (r : result unit) :
  cn_available self = true -> model <> "None" ->
  external_cn self = Some ext ->
  choose_image self p (resolve_module model module) input_image
    = Ok (image, crop) ->
  update_cn_script_in_processing ext p
    [mkControlNetUnit model weight BALANCED (resolve_module model module)
       guidance_start guidance_end true image crop]
    = (r, p') ->
  (forall msg, r <> Raise (AttributeError msg)) ->
  returned (update_scripts_args self p model module weight guidance_start
              guidance_end input_image) = r
  /\ request (update_scripts_args self p model module weight guidance_start
                guidance_end input_image) = p'.
Proof.
  intros Hav Hm Hext Himg Hmerge Hr.
  rewrite (update_scripts_args_past_guards _ _ _ _ _ _ _ _ ext image crop)
    by done.
  simpl. rewrite Hmerge. simpl. split; [|done].
  destruct r as [[]|e]; [done|]. destruct e; try done.
  by destruct (Hr msg).
Qed.

(** A merge that changes the request and then raises a [ValueError]. *)
Lemma merge_outcome_passed_on_witness :
  returned (update_scripts_args (ready_adapter broken_merge_api)
              (mkProcessing [PyBool true]) "control_v11p_sd15_openpose"
              None 1%float 0%float 1%float PyNone)
  = Raise (OtherError "ValueError" "no ControlNet script in the request")
  /\ request (update_scripts_args (ready_adapter broken_merge_api)
                (mkProcessing [PyBool true]) "control_v11p_sd15_openpose"
                None 1%float 0%float 1%float PyNone)
     = mkProcessing [PyBool true; PyNone].
Proof.
  refine (merge_outcome_passed_on (ready_adapter broken_merge_api)
            (mkProcessing [PyBool true]) (mkProcessing [PyBool true; PyNone])
            "control_v11p_sd15_openpose" None 1%float 0%float 1%float
            PyNone PyNone true broken_merge_api
            (Raise (OtherError "ValueError"
                      "no ControlNet script in the request"))
            _ _ _ _ _ _).
  - reflexivity.
  - discriminate.
  - reflexivity.
  - reflexivity.
  - reflexivity.
  - intros msg. discriminate.
Defined.

(** ** More on the catalog scanner *)

Lemma collect_models_snd (h : Host) (name_filter : string)
  (dirs : list Path) :
  snd (collect_models h name_filter dirs)
  = List.flat_map
      (fun base => if path_exists h base then [Exists base; Rglob base]
                   else [Exists base])
      dirs.
Proof.
  induction dirs as [|base dirs IH]; simpl; [done|].
  destruct (collect_models h name_filter dirs) as [found evs]. simpl in IH.
  rewrite <- IH. by destruct (path_exists h base).
Qed.

Lemma dir_requests (h : Host) (dirs : list Path) :
  let evs :=
    List.flat_map
      (fun base => if path_exists h base then [Exists base; Rglob base]
                   else [Exists base])
      dirs in
  exists_probes evs = dirs
  /\ traversals evs = List.filter (path_exists h) dirs
  /\ hashes evs = [].
Proof.
  induction dirs as [|base dirs (IH1 & IH2 & IH3)]; simpl; [done|].
  unfold exists_probes, traversals, hashes in *.
  rewrite !List.flat_map_app.
  destruct (path_exists h base); simpl; by rewrite IH1, IH2, IH3.
Qed.

Lemma hash_requests (paths : list Path) :
  exists_probes (List.map ModelHash paths) = []
  /\ traversals (List.map ModelHash paths) = []
  /\ hashes (List.map ModelHash paths) = paths.
Proof.
  induction paths as [|p paths (IH1 & IH2 & IH3)]; simpl; [done|].
  unfold hashes in *. simpl. by rewrite IH3.
Qed.

(** X14: what a scan asks of the host. Every listed directory is probed
    for existence once, in listing order; exactly the existing ones are
    traversed; exactly the files of the catalog are hashed, once each and
    in catalog order, after the last directory request. A file that the
    filters drop is never hashed. *)
Theorem scan_requests (g : Globals) (h : Host) :
  let evs := snd (scan_cn_models g h) in
  exists_probes evs = get_cn_model_dirs g h
  /\ traversals evs = List.filter (path_exists h) (get_cn_model_dirs g h)
  /\ hashes evs = scanned_paths g h
  /\ (exists dir_evs,
        evs = (dir_evs ++ List.map ModelHash (scanned_paths g h))%list
        /\ hashes dir_evs = [])
  /\ List.length (hashes evs) = List.length (fst (scan_cn_models g h)).
Proof.
  set (nf := lower (strip_space
                      (opts_get h "control_net_models_name_filter"))).
  assert (snd (scan_cn_models g h)
          = (snd (collect_models h nf (get_cn_model_dirs g h))
             ++ List.map ModelHash (scanned_paths g h))%list) as Hevs.
  { unfold scan_cn_models, scanned_paths. fold nf.
    by destruct (collect_models h nf _). }
  simpl. rewrite Hevs, collect_models_snd.
  destruct (dir_requests h (get_cn_model_dirs g h)) as (D1 & D2 & D3).
  destruct (hash_requests (scanned_paths g h)) as (H1 & H2 & H3).
  unfold exists_probes, traversals, hashes in *.
  rewrite !List.flat_map_app, D1, D2, D3, H1, H2, H3, !List.app_nil_r.
  repeat split; try done.
  - by eexists.
  - simpl. by rewrite scan_cn_models_fst, List.length_map.
Qed.

Lemma strip_space_spaces (n : nat) : strip_space (spaces n) = "".
Proof.
  unfold strip_space.
  assert (lstrip " " (spaces n) = "") as ->; [|done].
  induction n as [|n IH]; [done|]. simpl. exact IH.
Qed.

(** X15: a name filter that is missing from the settings, or that holds
    spaces alone, filters nothing: the catalog then lists every file of an
    existing model directory that has a listed extension and a key of the
    keyword table in its name. *)
Theorem blank_name_filter_keeps_all (g : Globals) (h : Host) :
  opts_data h !! "control_net_models_name_filter" = None
  \/ (exists n, opts_data h !! "control_net_models_name_filter"
                = Some (spaces n)) ->
  forall p,
    In p (scanned_paths g h) <->
    (exists base, In base (get_cn_model_dirs g h)
                  /\ path_exists h base = true
                  /\ In p (path_rglob h base))
    /\ path_is_file h p = true
    /\ In (path_suffix p) [".pt"; ".pth"; ".ckpt"; ".safetensors"; ".bin"]
    /\ (exists k v, In (k, v) cn_model_module
                    /\ substring_of k (path_name p)).
Proof.
  intros Hblank p.
  assert (lower (strip_space
                   (opts_get h "control_net_models_name_filter")) = "")
    as Hnf.
  { unfold opts_get. destruct Hblank as [-> | [n ->]]; [done|].
    by rewrite strip_space_spaces. }
  pose proof (scanned_paths_perm g h) as Hperm. rewrite Hnf in Hperm.
  assert (In p (scanned_paths g h) <->
          In p (List.filter (keep_model h "")
                  (walk_dirs h (get_cn_model_dirs g h)))) as ->.
  { split; apply Permutation_in; [done | by symmetry]. }
  rewrite filter_In, walk_dirs_In, keep_model_spec. split.
  - intros (Hw & Hf & Hs & Hk & _). done.
  - intros (Hw & Hf & Hs & Hk). repeat split; try done. by left.
Qed.

(** The filter of three spaces over a model file and a text file. *)
Lemma blank_name_filter_keeps_all_witness :
  In ["/"; "sd"; "models"; "ControlNet"; "control_depth.pth"]
    (scanned_paths (load_module (host_with_neighbor listing_api))
       (host_with_neighbor listing_api)).
Proof.
  apply (blank_name_filter_keeps_all
           (load_module (host_with_neighbor listing_api))
           (host_with_neighbor listing_api)).
  - right. exists 3. reflexivity.
  - split; [|split; [|split]].
    + exists ["/"; "sd"; "models"; "ControlNet"].
      split; [by left|]. split; [reflexivity | by left].
    + reflexivity.
    + right. left. reflexivity.
    + exists "depth", "depth_midas". split.
      * do 5 right. left. reflexivity.
      * apply str_in_spec. vm_compute. reflexivity.
Defined.

(** ** From the catalog to the module *)

Lemma str_in_tail (k : string) (c : ascii) (s : string) :
  str_in k (String c s) = false -> str_in k s = false.
Proof. rewrite str_in_cons. by intros [_ H]%orb_false_iff. Qed.

Lemma prefix_before_sep (c : ascii) (k x b : string) :
  str_in (String c "") k = false ->
  String.prefix k (x ++ String c b) = true ->
  String.prefix k x = true.
Proof.
  revert k. induction x as [|y x IH]; intros k Hc Hp.
  - rewrite append_empty_l in Hp. destruct k as [|d k]; [done|].
    simpl in Hp. destruct (ascii_dec d c) as [->|]; [|done].
    rewrite str_in_cons in Hc. apply orb_false_iff in Hc as [Hc _].
    simpl in Hc. destruct (ascii_dec c c); [|done]. by destruct k.
  - destruct k as [|d k]; [done|].
    rewrite append_cons in Hp. simpl in *.
    destruct (ascii_dec d y); [|done].
    apply IH; [|done]. by apply (str_in_tail _ d).
Qed.

(** A string without the separator that occurs in [a], separator, [b]
    occurs in [a] or in [b]. *)
Lemma str_in_around_sep (c : ascii) (k a b : string) :
  str_in (String c "") k = false ->
  str_in k (a ++ String c b) = true ->
  str_in k a = true \/ str_in k b = true.
Proof.
  intros Hc. induction a as [|y a IH]; intros Hin.
  - rewrite append_empty_l, str_in_cons in Hin.
    apply orb_true_iff in Hin as [Hp|Hin]; [|by right].
    left. rewrite str_in_nil.
    apply (prefix_before_sep c k "" b); [done|]. by rewrite append_empty_l.
  - rewrite append_cons, str_in_cons in Hin.
    apply orb_true_iff in Hin as [Hp|Hin].
    + left. rewrite str_in_cons. apply orb_true_iff. left.
      apply (prefix_before_sep c k (String y a) b); [done|].
      by rewrite append_cons.
    + destruct (IH Hin) as [H|H]; [|by right].
      left. rewrite str_in_cons. apply orb_true_iff. by right.
Qed.

Lemma key_not_in_extension (k v ext : string) :
  In (k, v) cn_model_module ->
  In ext ["pt"; "pth"; "ckpt"; "safetensors"; "bin"] ->
  str_in "." k = false /\ str_in k ext = false.
Proof.
  intros Hk Hext. simpl in Hk, Hext.
  repeat (destruct Hk as [[= <- <-]|Hk];
          [repeat (destruct Hext as [<-|Hext]; [by vm_compute|]);
           destruct Hext|]).
  destruct Hk.
Qed.

Lemma substring_of_app_r (k s t : string) :
  substring_of k s -> substring_of k (s ++ t).
Proof.
  intros (pre & post & ->). exists pre, (post ++ t).
  by rewrite !append_assoc.
Qed.

(** A key of the table that occurs in the name of a file with a listed
    extension occurs in its stem. *)
Lemma key_in_stem (p : Path) (k v : string) :
  In (k, v) cn_model_module ->
  In (path_suffix p) [".pt"; ".pth"; ".ckpt"; ".safetensors"; ".bin"] ->
  substring_of k (path_name p) ->
  substring_of k (path_stem p).
Proof.
  intros Hk Hsuf Hin.
  assert (exists ext, path_suffix p = String "." ext
                      /\ In ext ["pt"; "pth"; "ckpt"; "safetensors"; "bin"])
    as (ext & Hext & Hlist).
  { simpl in Hsuf.
    destruct Hsuf as [H|[H|[H|[H|[H|[]]]]]]; rewrite <- H; eexists;
      (split; [reflexivity|]); simpl; tauto. }
  destruct (key_not_in_extension k v ext Hk Hlist) as [Hdot Hno].
  rewrite <- path_stem_suffix, Hext in Hin. apply str_in_spec in Hin.
  apply str_in_spec.
  destruct (str_in_around_sep "." k (path_stem p) ext Hdot Hin) as [H|H];
    [done | congruence].
Qed.

(** X16: every entry of the catalog names a model that
    [update_scripts_args] can work with unaided: a key of the keyword
    table occurs in the entry, as it occurs in the stem of the file and
    not in its extension, so the module is resolved from the entry. *)
Theorem catalog_entries_resolve (g : Globals) (h : Host) :
  List.Forall
    (fun entry =>
       (exists k v, In (k, v) cn_model_module /\ substring_of k entry)
       /\ exists v, resolve_module entry None = Some v)
    (fst (scan_cn_models g h)).
Proof.
  rewrite scan_cn_models_fst. apply List.Forall_forall. intros entry Hentry.
  apply in_map_iff in Hentry as (p & <- & Hp).
  apply (Permutation_in _ (scanned_paths_perm g h)) in Hp.
  apply filter_In in Hp as [_ Hkeep].
  apply keep_model_spec in Hkeep as (_ & Hsuf & (k & v & Hk & Hin) & _).
  assert (substring_of k (format_model h p)) as Hentry.
  { unfold format_model. apply substring_of_app_r.
    by apply (key_in_stem p k v). }
  split; [by exists k, v|].
  rewrite resolve_module_unspecified. by eapply scan_table_complete.
Qed.

(** ** Repeated files *)

Lemma count_occ_filter_keep (f : Path -> bool) (p : Path) (l : list Path) :
  count_occ Path_eq_dec (List.filter f l) p
  = if f p then count_occ Path_eq_dec l p else 0.
Proof.
  induction l as [|q l IH]; simpl; [by destruct (f p)|].
  destruct (f q) eqn:Hq; simpl.
  - destruct (Path_eq_dec q p) as [->|Hne].
    + rewrite IH, Hq. done.
    + rewrite IH. by destruct (f p).
  - rewrite IH. destruct (Path_eq_dec q p) as [->|Hne];
      [by rewrite Hq | by destruct (f p)].
Qed.

(** X17: the scanner does not deduplicate. A file is listed as many times
    as the traversals of the existing model directories yield it: a
    directory listed twice, or one that lies inside another, gives its
    files twice. *)
Theorem catalog_keeps_repetitions (g : Globals) (h : Host) (p : Path) :
  let name_filter :=
    lower (strip_space (opts_get h "control_net_models_name_filter")) in
  count_occ Path_eq_dec (scanned_paths g h) p
  = (if keep_model h name_filter p
     then count_occ Path_eq_dec
            (walk_dirs h (get_cn_model_dirs g h)) p
     else 0)
  /\ List.length (fst (scan_cn_models g h))
     = List.length
         (List.filter (keep_model h name_filter)
            (walk_dirs h (get_cn_model_dirs g h))).
Proof.
  intros name_filter. pose proof (scanned_paths_perm g h) as Hperm.
  fold name_filter in Hperm. split.
  - rewrite (Permutation_count_occ Path_eq_dec) in Hperm.
    rewrite Hperm. apply count_occ_filter_keep.
  - rewrite scan_cn_models_fst, List.length_map.
    by apply Permutation_length.
Qed.

(** ** From the model list to the unit *)

(** X18: the adapter can apply what it offers. Once the adapter reports
    the neighbor available, every entry of its model list other than the
    sentinel, given with an image and without a module, makes
    [update_scripts_args] build one unit for that model with a module
    resolved from the table and hand it to the merge. *)
Theorem offered_model_builds_unit (ops : list adapter_op) (m : string)
  (p : Processing) (weight guidance_start guidance_end : float)
  (image : pyval) :
  let self := run_ops ops ControlNetExt_init in
  cn_available self = true ->
  In m (cn_models self) -> m <> "None" ->
  is_None image = false ->
  exists v,
    resolve_module m None = Some v
    /\ calls (update_scripts_args self p m None weight guidance_start
                guidance_end image)
       = [ NewControlNetUnit
             (mkControlNetUnit m weight BALANCED (Some v) guidance_start
                guidance_end true image false);
           UpdateCnScript p
             [ mkControlNetUnit m weight BALANCED (Some v) guidance_start
                 guidance_end true image false ] ].
Proof.
  intros self Hav Hin Hm Himg.
  destruct (run_ops_cn_models ops ControlNetExt_init [] eq_refl
              (List.Forall_nil _)) as (rest & Hmodels & Hf).
  fold self in Hmodels. rewrite Hmodels in Hin.
  destruct Hin as [Heq|Hin]; [congruence|].
  rewrite List.Forall_forall in Hf. specialize (Hf m Hin).
  apply re_search_spec in Hf as (k & v0 & Hk & Hs).
  destruct (scan_table_complete cn_model_module m k v0 Hk Hs) as [v Hv].
  rewrite <- resolve_module_unspecified in Hv.
  exists v. split; [done|].
  destruct (run_ops_handle_present ops ControlNetExt_init
              fresh_handle_present Hav) as [ext Hext].
  fold self in Hext.
  rewrite (update_scripts_args_past_guards self p m None weight
             guidance_start guidance_end image ext image false);
    try done.
  - by rewrite Hv.
  - by apply choose_image_given.
Qed.

(** The adapter after one successful initialisation, asked for the model
    it lists. *)
Lemma offered_model_builds_unit_witness :
  exists v,
    resolve_module "control_v11p_sd15_openpose [cab727d4]" None = Some v
    /\ calls (update_scripts_args
                (run_ops
                   [OpInitControlnet
                      (load_module (host_with_neighbor listing_api))
                      (host_with_neighbor listing_api)]
                   ControlNetExt_init)
                (mkProcessing []) "control_v11p_sd15_openpose [cab727d4]"
                None 1%float 0%float 1%float (PyImage 7))
       = [ NewControlNetUnit
             (mkControlNetUnit "control_v11p_sd15_openpose [cab727d4]"
                1%float BALANCED (Some v) 0%float 1%float true (PyImage 7)
                false);
           UpdateCnScript (mkProcessing [])
             [ mkControlNetUnit "control_v11p_sd15_openpose [cab727d4]"
                 1%float BALANCED (Some v) 0%float 1%float true (PyImage 7)
                 false ] ].
Proof.
  refine (offered_model_builds_unit
            [OpInitControlnet (load_module (host_with_neighbor listing_api))
               (host_with_neighbor listing_api)]
            "control_v11p_sd15_openpose [cab727d4]" (mkProcessing [])
            1%float 0%float 1%float (PyImage 7) _ _ _ _).
  - reflexivity.
  - right. left. reflexivity.
  - discriminate.
  - reflexivity.
Defined.

(** ** The face-identity image of the request *)

(** X19: the first candidate of the request decides the image. For a call
    past the guards whose module resolves to the face-identity one and
    whose caller gives no image: when the script arguments hold no
    candidate, the unit has no image and the crop flag set; when the first
    candidate is a dict, or a native unit whose image dict holds an image,
    the unit carries that image with the crop flag cleared, whatever
    follows the candidate. *)
Theorem face_id_image_from_first_candidate (self : ControlNetExt)
  (p : Processing) (model : string) (module : option string)
  (weight guidance_start guidance_end : float) (ext : external_code) :
  cn_available self = true -> model <> "None" ->
  external_cn self = Some ext ->
  resolve_module model module = Some face_id_module ->
  let built image crop :=
    let u := mkControlNetUnit model weight BALANCED (Some face_id_module)
               guidance_start guidance_end true image crop in
    calls (update_scripts_args self p model module weight guidance_start
             guidance_end PyNone)
    = [NewControlNetUnit u; UpdateCnScript p [u]] in
  (List.filter face_id_candidate (script_args p) = [] -> built PyNone true)
  /\ (forall d rest v,
        List.filter face_id_candidate (script_args p) = PyDict d :: rest ->
        d !! "input_image" = Some v ->
        built v false)
  /\ (forall u d rest v,
        List.filter face_id_candidate (script_args p) = PyUnit u :: rest ->
        unit_image u = PyDict d -> d !! "image" = Some v ->
        is_None v = false ->
        built v false).
Proof.
  intros Hav Hm Hext Hmod built. subst built. cbv zeta.
  assert (forall image crop,
             choose_image self p (Some face_id_module) PyNone
             = Ok (image, crop) ->
             calls (update_scripts_args self p model module weight
                      guidance_start guidance_end PyNone)
             = [ NewControlNetUnit
                   (mkControlNetUnit model weight BALANCED
                      (Some face_id_module) guidance_start guidance_end
                      true image crop);
                 UpdateCnScript p
                   [ mkControlNetUnit model weight BALANCED
                       (Some face_id_module) guidance_start guidance_end
                       true image crop ] ]) as Hbuilt.
  { intros image crop Hc.
    rewrite (update_scripts_args_past_guards self p model module weight
               guidance_start guidance_end PyNone ext image crop);
      try done; by rewrite Hmod. }
  pose proof (choose_image_face_id self p PyNone eq_refl) as Hchoose.
  rewrite (extract_face_id_filter self ext) in Hchoose by done.
  split; [|split].
  - intros Hnone. apply Hbuilt. by rewrite Hchoose, Hnone.
  - intros d rest v Hfirst Hv. apply Hbuilt.
    pose proof (filter_head _ _ _ _ Hfirst) as Hcand. simpl in Hcand.
    rewrite Hchoose, Hfirst, (extract_face_id_cons self ext) by done.
    rewrite Hcand. simpl. rewrite Hv.
    apply andb_true_iff in Hcand as [_ Hpresent].
    unfold dict_get in Hpresent. rewrite Hv in Hpresent.
    by destruct (is_None v).
  - intros u d rest v Hfirst Himg Hv Hpresent. apply Hbuilt.
    pose proof (filter_head _ _ _ _ Hfirst) as Hcand. simpl in Hcand.
    rewrite Hchoose, Hfirst, (extract_face_id_cons self ext) by done.
    rewrite Hcand, Himg. simpl. by rewrite Hv, Hpresent.
Qed.

(** A request whose first candidate is a legacy dict with an image,
    followed by a native unit without one. *)
Lemma face_id_image_from_first_candidate_witness :
  calls (update_scripts_args (ready_adapter appending_api)
           (mkProcessing [PyBool true; face_id_dict (PyImage 7);
                          PyUnit (face_id_unit PyNone)])
           "ip-adapter-faceid-plusv2_sd15" None 1%float 0%float 1%float
           PyNone)
  = [ NewControlNetUnit
        (mkControlNetUnit "ip-adapter-faceid-plusv2_sd15" 1%float BALANCED
           (Some face_id_module) 0%float 1%float true (PyImage 7) false);
      UpdateCnScript
        (mkProcessing [PyBool true; face_id_dict (PyImage 7);
                       PyUnit (face_id_unit PyNone)])
        [ mkControlNetUnit "ip-adapter-faceid-plusv2_sd15" 1%float BALANCED
            (Some face_id_module) 0%float 1%float true (PyImage 7) false ] ].
Proof.
  refine (proj1 (proj2 (face_id_image_from_first_candidate
            (ready_adapter appending_api)
            (mkProcessing [PyBool true; face_id_dict (PyImage 7);
                           PyUnit (face_id_unit PyNone)])
            "ip-adapter-faceid-plusv2_sd15" None 1%float 0%float 1%float
            appending_api _ _ _ _))
            {[ "module" := PyStr face_id_module;
               "input_image" := PyImage 7 ]}
            [PyUnit (face_id_unit PyNone)] (PyImage 7) _ _).
  - reflexivity.
  - discriminate.
  - reflexivity.
  - reflexivity.
  - reflexivity.
  - reflexivity.
Defined.
